(** * upload-proxy.mjs: the forwarding relay

    A shallow embedding of the relay: the host allow-list check
    ([isAllowedTarget]), the sanitising of caller-supplied headers
    ([parseExtraHeaders]), the outbound call with its abort timer
    ([proxyFetch]) and the request handler that [http.createServer] is
    given ([handler]).

    The handler is a computation in a state and exception monad over a
    [World]: the response object [res] it mutates, the outbound calls it
    has made, the timers it has asked for, and those of them that are
    set and not cleared.

    The runtime the script runs on is not part of the script.  Its URL
    parser, its JSON parser and the network behind [fetch] are variables
    of the section [Relay], so that every theorem holds for whatever they
    answer; the module [Reference] gives small ones to evaluate the
    handler on concrete requests.  Strings that the protocol keeps in
    ASCII (methods, URLs, header names, messages) are [string]s; the text
    of an upstream body, which the script cuts by position, is a list of
    UTF-16 code units.  Wall-clock time is not modelled: the network says
    of a call whether it is still pending when its timer fires, and a
    body is a stream that ends or breaks. *)

From Stdlib Require Import ZArith NArith Ascii String List Bool Lia.
From Stdlib Require Import Init.Byte Strings.Byte DecimalString DecimalNat DecimalFacts.
From stdpp Require Import base option list gmap strings fin_maps.

Local Open Scope string_scope.
Local Open Scope Z_scope.

(** ** Strings *)

Module JSString.

(** [String.prototype.toLowerCase], on the ASCII letters.  The script
    compares lower-cased strings with host names and header names that
    are ASCII; the one other character that lower-cases to an ASCII
    letter, the Kelvin sign, gives a [k], which none of them has. *)
Definition lower_ascii (c : ascii) : ascii :=
  let n := N_of_ascii c in
  if ((65 <=? n) && (n <=? 90))%N then ascii_of_N (n + 32) else c.

Fixpoint toLowerCase (s : string) : string :=
  match s with
  | EmptyString => EmptyString
  | String c s' => String (lower_ascii c) (toLowerCase s')
  end.

(** [String.prototype.endsWith]: [x] is [s] or the end of a tail of [s]. *)
Fixpoint endsWith (s x : string) : bool :=
  String.eqb s x ||
  match s with
  | EmptyString => false
  | String _ s' => endsWith s' x
  end.

(** A string in a condition: only the empty string is falsy. *)
Definition truthy (s : string) : bool := negb (String.eqb s "").

(** [Array.prototype.includes] on an array of strings. *)
Definition includes (l : list string) (x : string) : bool :=
  existsb (String.eqb x) l.

(** [String(i)] for an array index. *)
Definition of_index (i : nat) : string :=
  NilEmpty.string_of_uint (Nat.to_uint i).

End JSString.
Import JSString.

(** ** JSON values, as [JSON.parse] returns them *)

#[local] Unset Elimination Schemes.
Inductive JSON : Type :=
| JNull
| JBool (b : bool)
| JNumber (literal : string)
| JString (s : string)
| JArray (items : list JSON)
| JObject (props : gmap string JSON).
#[local] Set Elimination Schemes.

(** ** Bytes and text

    [Response.text()] decodes the body as UTF-8 into a JavaScript string,
    a sequence of UTF-16 code units; [res.end(string)] writes a string as
    UTF-8.  Both follow the algorithms of the Encoding standard, with
    U+FFFD for what cannot be decoded or encoded. *)

Module Text.
Local Open Scope N_scope.

Definition code_unit := N.

Definition of_byte (b : byte) : N := Byte.to_N b.
Definition to_byte (n : N) : byte :=
  match Byte.of_N n with Some b => b | None => Byte.x00 end.

Record decoder := {
  code_point : N; bytes_seen : N; bytes_needed : N;
  lower_boundary : N; upper_boundary : N }.

Definition idle : decoder :=
  {| code_point := 0; bytes_seen := 0; bytes_needed := 0;
     lower_boundary := 0x80; upper_boundary := 0xBF |}.

(** A byte met when no sequence is open. *)
Definition lead (b : N) : decoder * list N :=
  if b <=? 0x7F then (idle, [b])
  else if (0xC2 <=? b) && (b <=? 0xDF) then
    ({| code_point := N.land b 0x1F; bytes_seen := 0; bytes_needed := 1;
        lower_boundary := 0x80; upper_boundary := 0xBF |}, [])
  else if (0xE0 <=? b) && (b <=? 0xEF) then
    ({| code_point := N.land b 0xF; bytes_seen := 0; bytes_needed := 2;
        lower_boundary := if b =? 0xE0 then 0xA0 else 0x80;
        upper_boundary := if b =? 0xED then 0x9F else 0xBF |}, [])
  else if (0xF0 <=? b) && (b <=? 0xF4) then
    ({| code_point := N.land b 0x7; bytes_seen := 0; bytes_needed := 3;
        lower_boundary := if b =? 0xF0 then 0x90 else 0x80;
        upper_boundary := if b =? 0xF4 then 0x8F else 0xBF |}, [])
  else (idle, [0xFFFD]).

(** One byte through the decoder: the new state and the code points
    that come out.  A byte that cannot continue the open sequence
    closes it with U+FFFD and is read again as a first byte. *)
Definition feed (d : decoder) (b : N) : decoder * list N :=
  if bytes_needed d =? 0 then lead b
  else if negb ((lower_boundary d <=? b) && (b <=? upper_boundary d)) then
    let '(d', out) := lead b in (d', 0xFFFD :: out)
  else
    let cp := N.lor (N.shiftl (code_point d) 6) (N.land b 0x3F) in
    if bytes_seen d + 1 =? bytes_needed d then (idle, [cp])
    else ({| code_point := cp; bytes_seen := bytes_seen d + 1;
             bytes_needed := bytes_needed d;
             lower_boundary := 0x80; upper_boundary := 0xBF |}, []).

Fixpoint decode_from (d : decoder) (bs : list byte) : list N :=
  match bs with
  | [] => if bytes_needed d =? 0 then [] else [0xFFFD]
  | b :: bs' => let '(d', out) := feed d (of_byte b) in out ++ decode_from d' bs'
  end.

(** A code point as one code unit or a surrogate pair. *)
Definition utf16 (cp : N) : list code_unit :=
  if cp <? 0x10000 then [cp]
  else let c := cp - 0x10000 in
       [0xD800 + N.shiftr c 10; 0xDC00 + N.land c 0x3FF].

Definition strip_bom (bs : list byte) : list byte :=
  match bs with
  | Byte.xef :: Byte.xbb :: Byte.xbf :: bs' => bs'
  | _ => bs
  end.

(** [new TextDecoder().decode(bs)]: a byte order mark at the start is
    not part of the text. *)
Definition TextDecoder_decode (bs : list byte) : list code_unit :=
  concat (map utf16 (decode_from idle (strip_bom bs))).

(** The text of a body, as [Response.text()] of the runtime's [fetch]
    gives it: the body is taken without its byte order mark and handed
    to a [TextDecoder], which drops a byte order mark in its turn.  Of a
    body that starts with two byte order marks neither is in the text. *)
Definition utf8_decode (bs : list byte) : list code_unit :=
  TextDecoder_decode (strip_bom bs).

Definition is_high (u : N) : bool := (0xD800 <=? u) && (u <=? 0xDBFF).
Definition is_low (u : N) : bool := (0xDC00 <=? u) && (u <=? 0xDFFF).

(** The UTF-8 bytes of a code point. *)
Definition utf8 (cp : N) : list byte :=
  if cp <? 0x80 then [to_byte cp]
  else if cp <? 0x800 then
    [to_byte (N.lor 0xC0 (N.shiftr cp 6)); to_byte (N.lor 0x80 (N.land cp 0x3F))]
  else if cp <? 0x10000 then
    [to_byte (N.lor 0xE0 (N.shiftr cp 12));
     to_byte (N.lor 0x80 (N.land (N.shiftr cp 6) 0x3F));
     to_byte (N.lor 0x80 (N.land cp 0x3F))]
  else
    [to_byte (N.lor 0xF0 (N.shiftr cp 18));
     to_byte (N.lor 0x80 (N.land (N.shiftr cp 12) 0x3F));
     to_byte (N.lor 0x80 (N.land (N.shiftr cp 6) 0x3F));
     to_byte (N.lor 0x80 (N.land cp 0x3F))].

(** A string written as UTF-8: a surrogate pair is one code point, a
    surrogate on its own is written as U+FFFD. *)
Fixpoint utf8_encode (us : list code_unit) : list byte :=
  match us with
  | [] => []
  | u :: rest =>
      if is_high u then
        match rest with
        | l :: rest' =>
            if is_low l
            then utf8 (0x10000 + N.shiftl (u - 0xD800) 10 + (l - 0xDC00))
                   ++ utf8_encode rest'
            else utf8 0xFFFD ++ utf8_encode rest
        | [] => utf8 0xFFFD
        end
      else if is_low u then utf8 0xFFFD ++ utf8_encode rest
      else utf8 u ++ utf8_encode rest
  end.

(** A body of ASCII bytes. *)
Definition ascii_only (data : list byte) : Prop :=
  Forall (fun b => of_byte b < 0x80) data.

(** [String.prototype.slice(0, n)]. *)
Definition slice0 (n : nat) (us : list code_unit) : list code_unit := take n us.

End Text.

(** ** The objects of the runtime *)

(** A thrown value: its [message] (empty when it has none) and what
    [String(e)] gives. *)
Record JSError := { message : string; as_string : string }.

Definition Error (msg : string) : JSError :=
  {| message := msg;
     as_string := if truthy msg then "Error: " +:+ msg else "Error" |}.

(** What [new URL(..)] throws on an input it cannot parse. *)
Definition invalid_url : JSError :=
  {| message := "Invalid URL"; as_string := "TypeError: Invalid URL" |}.

(** The fields of a parsed [URL] that the script reads. *)
Record URL := {
  protocol : string;
  hostname : string;
  pathname : string;
  searchParams : list (string * string) }.

(** [URLSearchParams.get]: the value of the first pair with that name,
    [None] for [null]. *)
Definition searchParams_get (u : URL) (name : string) : option string :=
  snd <$> find (fun p => String.eqb (fst p) name) (searchParams u).

(** A readable stream, by what reading it to its end gives. *)
Inductive Stream :=
| Delivers (data : list byte)
| Breaks (e : JSError).

(** A value of [req.headers]: a string, or an array of strings. *)
Inductive HeaderValue :=
| Single (v : string)
| Multi (vs : list string).

(** The inbound request.  [headers] has lower-cased names, as Node
    stores them; [upload] is the request read as a stream. *)
Record IncomingMessage := {
  method : string;
  url : string;
  headers : gmap string HeaderValue;
  upload : Stream }.

(** The response of [fetch].  [resp_headers] has lower-cased names;
    [body] is [None] for a null body. *)
Record Response := {
  status : Z;
  resp_headers : gmap string string;
  body : option Stream }.

(** [Response.ok]. *)
Definition ok (r : Response) : bool := (200 <=? status r) && (status r <=? 299).

(** [Headers.get]: [None] for [null]. *)
Definition headers_get (r : Response) (name : string) : option string :=
  resp_headers r !! toLowerCase name.

(** The arguments of one call of [fetch]. [signal] is the reason its
    abort controller aborts with. *)
Record OutboundCall := {
  call_url : string;
  call_method : string;
  call_headers : gmap string string;
  call_body : option (list byte);
  redirect : string;
  signal : JSError }.

(** What the network does with a call, seen from [proxyFetch]: the
    promise is fulfilled, or rejected, or is still pending when the timer
    of the call fires. *)
Inductive Upstream :=
| Responds (r : Response)
| Fails (e : JSError)
| Hangs.

(** What has been written to [res]: bytes given to [res.end], or a
    stream piped into it. *)
Inductive Payload :=
| Ended (data : list byte)
| Piped (s : Stream).

(** The outbound response [res].  [out_headers] has lower-cased names. *)
Record ServerResponse := {
  statusCode : Z;
  out_headers : gmap string string;
  sent : option Payload }.

(** A timer of [setTimeout]. *)
Record Timer := { delay : Z; on_fire : JSError }.

(** ** State and exceptions

    The handler mutates [res], calls [fetch] and sets and clears timers.
    [World] holds [res], the outbound calls made so far (oldest first),
    the timers that are set and not cleared, and the timers that
    [setTimeout] has been asked for so far (oldest first). *)

Record World := {
  res : ServerResponse;
  calls : list OutboundCall;
  timers : gmap nat Timer;
  next_timer : nat;
  timeouts : list Timer }.

Inductive Result (A : Type) :=
| Returns (a : A)
| Throws (e : JSError).
Arguments Returns {A} a.
Arguments Throws {A} e.

Definition M (A : Type) : Type := World -> Result A * World.

Definition ret {A} (a : A) : M A := fun w => (Returns a, w).

Definition bind {A B} (m : M A) (k : A -> M B) : M B :=
  fun w => match m w with
           | (Returns a, w') => k a w'
           | (Throws e, w') => (Throws e, w')
           end.

Definition throw {A} (e : JSError) : M A := fun w => (Throws e, w).

(** [try { m } catch (e) { h e }] *)
Definition try_catch {A} (m : M A) (h : JSError -> M A) : M A :=
  fun w => match m w with
           | (Returns a, w') => (Returns a, w')
           | (Throws e, w') => h e w'
           end.

(** [try { m } finally { f }], for an [f] that does not throw. *)
Definition try_finally {A} (m : M A) (f : M unit) : M A :=
  fun w => match m w with
           | (r, w') => (r, snd (f w'))
           end.

Notation "x <- m ;; k" := (bind m (fun x => k))
  (at level 100, m at next level, right associativity).
Notation "m ;; k" := (bind m (fun _ => k))
  (at level 100, right associativity).

Definition update_res (f : ServerResponse -> ServerResponse) : M unit :=
  fun w => (Returns tt,
            {| res := f (res w); calls := calls w;
               timers := timers w; next_timer := next_timer w;
               timeouts := timeouts w |}).

(** [res.statusCode = n] *)
Definition set_statusCode (n : Z) : M unit :=
  update_res (fun r => {| statusCode := n; out_headers := out_headers r; sent := sent r |}).

(** [res.setHeader(name, value)] *)
Definition setHeader (name value : string) : M unit :=
  update_res (fun r => {| statusCode := statusCode r;
                          out_headers := <[toLowerCase name := value]> (out_headers r);
                          sent := sent r |}).

Definition write (p : Payload) : M unit :=
  update_res (fun r => {| statusCode := statusCode r; out_headers := out_headers r;
                          sent := Some p |}).

(** [res.end()], [res.end(message)] for a message of the script,
    [res.end(text)] for a decoded text, and [stream.pipe(res)]. *)
Definition end_ : M unit := write (Ended []).
Definition end_message (s : string) : M unit := write (Ended (list_byte_of_string s)).
Definition end_text (t : list Text.code_unit) : M unit := write (Ended (Text.utf8_encode t)).
Definition pipe (s : Stream) : M unit := write (Piped s).

(** [setTimeout(() => controller.abort(reason), ms)] *)
Definition setTimeout (reason : JSError) (ms : Z) : M nat :=
  fun w => (Returns (next_timer w),
            {| res := res w; calls := calls w;
               timers := <[next_timer w := {| delay := ms; on_fire := reason |}]> (timers w);
               next_timer := S (next_timer w);
               timeouts := timeouts w ++ [{| delay := ms; on_fire := reason |}] |}).

(** [clearTimeout(t)] *)
Definition clearTimeout (t : nat) : M unit :=
  fun w => (Returns tt,
            {| res := res w; calls := calls w;
               timers := delete t (timers w); next_timer := next_timer w;
               timeouts := timeouts w |}).

(** Reading a stream to its end: [readRequestBody] for the request. *)
Definition read (s : Stream) : M (list byte) :=
  match s with
  | Delivers data => ret data
  | Breaks e => throw e
  end.

Definition readRequestBody (req : IncomingMessage) : M (list byte) := read (upload req).

(** [upstream.text().catch(() => "")] *)
Definition text_or_empty (r : Response) : list Text.code_unit :=
  match body r with
  | None => []
  | Some (Delivers data) => Text.utf8_decode data
  | Some (Breaks _) => []
  end.

(** ** A runtime to run the model on

    The theorems below hold for every URL parser, JSON parser and
    network.  To evaluate the handler on a concrete request this module
    gives small ones: a URL parser for the plain forms
    [scheme://host[:port][/path][?query]] and [/path[?query]] against a
    base (no percent-decoding, no fragment, no user info), and a JSON
    parser that knows the texts of a table. *)

Module Reference.

(** [s] up to the first [sep], and what follows it if [sep] occurs. *)
Fixpoint cut (sep : ascii) (s : string) : string * option string :=
  match s with
  | EmptyString => (EmptyString, None)
  | String c s' =>
      if Ascii.eqb c sep then (EmptyString, Some s')
      else let '(a, b) := cut sep s' in (String c a, b)
  end.

Fixpoint fields (sep : ascii) (s : string) : list string :=
  match s with
  | EmptyString => [EmptyString]
  | String c s' =>
      if Ascii.eqb c sep then EmptyString :: fields sep s'
      else match fields sep s' with
           | f :: fs => String c f :: fs
           | [] => [String c EmptyString]
           end
  end.

Definition pair_of (field : string) : string * string :=
  let '(name, value) := cut "=" field in (name, default "" value).

Definition query_pairs (q : option string) : list (string * string) :=
  match q with
  | None => []
  | Some q => map pair_of (filter (fun f => truthy f = true) (fields "&" q))
  end.

Definition is_letter (c : ascii) : bool :=
  let n := N_of_ascii (lower_ascii c) in ((97 <=? n) && (n <=? 122))%N.

Fixpoint all_letters (s : string) : bool :=
  match s with
  | EmptyString => true
  | String c s' => is_letter c && all_letters s'
  end.

Definition absolute (input : string) : option URL :=
  match cut ":" input with
  | (scheme, Some (String "/" (String "/" rest))) =>
      if truthy scheme && all_letters scheme then
        let '(hostpath, query) := cut "?" rest in
        let '(authority, path) := cut "/" hostpath in
        let '(host, _) := cut ":" authority in
        if truthy host then
          Some {| protocol := toLowerCase scheme +:+ ":";
                  hostname := toLowerCase host;
                  pathname := "/" +:+ default "" path;
                  searchParams := query_pairs query |}
        else None
      else None
  | _ => None
  end.

Definition URL_new (input : string) (base : option string) : option URL :=
  match absolute input with
  | Some u => Some u
  | None =>
      match input, base with
      | String "/" _, Some b =>
          match absolute b with
          | Some bu =>
              let '(path, query) := cut "?" input in
              Some {| protocol := protocol bu; hostname := hostname bu;
                      pathname := path; searchParams := query_pairs query |}
          | None => None
          end
      | _, _ => None
      end
  end.

Definition JSON_of_table (table : list (string * JSON)) (text : string) : option JSON :=
  snd <$> find (fun p => String.eqb (fst p) text) table.

(** A network that cannot be reached, and one that gives one answer. *)
Definition offline : OutboundCall -> Upstream := fun _ => Fails (Error "fetch failed").
Definition replies (r : Response) : OutboundCall -> Upstream := fun _ => Responds r.

(** A request to the relay on its default port. *)
Definition request (method url : string) (extra : option string) (data : list byte)
  : IncomingMessage :=
  {| method := method; url := url;
     headers :=
       match extra with
       | Some text => <["x-extra-headers" := Single text]> {["host" := Single "localhost:8787"]}
       | None => {["host" := Single "localhost:8787"]}
       end;
     upload := Delivers data |}.

(** The header of the example: an object with the keys [Authorization],
    [X-Forbidden] and [Accept]. *)
Definition quote : string := String "034"%char EmptyString.

Definition example_text : string :=
  "{" +:+ quote +:+ "Authorization" +:+ quote +:+ ":" +:+ quote +:+ "Bearer abc" +:+ quote
  +:+ "," +:+ quote +:+ "X-Forbidden" +:+ quote +:+ ":" +:+ quote +:+ "x" +:+ quote
  +:+ "," +:+ quote +:+ "Accept" +:+ quote +:+ ":" +:+ quote +:+ "text/plain" +:+ quote
  +:+ "}".

Definition example_props : gmap string JSON :=
  <["Authorization" := JString "Bearer abc"]>
    (<["X-Forbidden" := JString "x"]>
       (<["Accept" := JString "text/plain"]> ∅)).

Definition JSON_parse : string -> option JSON :=
  JSON_of_table [(example_text, JObject example_props)].

(** A body of [n] Hangul syllables, U+D55C, three bytes each. *)
Definition hangul (n : nat) : list byte :=
  concat (replicate n [Byte.xed; Byte.x95; Byte.x9c]).

Definition hangul_body : list byte := hangul 1000.

End Reference.

(** ** The browser side of a runtime to run the model on

    [encodeURIComponent] by percent-encoding of what is not unreserved,
    a URL parser that decodes the values of the query, [JSON.stringify]
    for a record of strings without characters to escape, and the reason
    phrases of some statuses. *)

Module Browser.

Definition hex_digit (n : N) : ascii :=
  ascii_of_N (if (n <? 10)%N then 48 + n else 55 + n)%N.

Definition hex_value (c : ascii) : option N :=
  let n := N_of_ascii c in
  if ((48 <=? n) && (n <=? 57))%N then Some (n - 48)%N
  else if ((65 <=? n) && (n <=? 70))%N then Some (n - 55)%N
  else if ((97 <=? n) && (n <=? 102))%N then Some (n - 87)%N
  else None.

(** The characters [encodeURIComponent] leaves as they are. *)
Definition unreserved (c : ascii) : bool :=
  let n := N_of_ascii c in
  ((48 <=? n) && (n <=? 57))%N || ((65 <=? n) && (n <=? 90))%N
  || ((97 <=? n) && (n <=? 122))%N
  || existsb (Ascii.eqb c) ["-"; "_"; "."; "!"; "~"; "*"; "'"; "("; ")"]%char.

Fixpoint encodeURIComponent (s : string) : string :=
  match s with
  | EmptyString => EmptyString
  | String c s' =>
      if unreserved c then String c (encodeURIComponent s')
      else String "%" (String (hex_digit (N_of_ascii c / 16))
                         (String (hex_digit (N_of_ascii c mod 16))
                            (encodeURIComponent s')))
  end.

Fixpoint percent_decode (s : string) : string :=
  match s with
  | String "%" (String h (String l s')) =>
      match hex_value h, hex_value l with
      | Some a, Some b => String (ascii_of_N (16 * a + b)) (percent_decode s')
      | _, _ => String "%" (String h (String l (percent_decode s')))
      end
  | String c s' => String c (percent_decode s')
  | EmptyString => EmptyString
  end.

(** [Reference.URL_new] with the query values decoded. *)
Definition URL_new (input : string) (base : option string) : option URL :=
  match Reference.URL_new input base with
  | Some u =>
      Some {| protocol := protocol u; hostname := hostname u; pathname := pathname u;
              searchParams := map (fun p => (fst p, percent_decode (snd p))) (searchParams u) |}
  | None => None
  end.

Definition member (kv : string * JSON) : string :=
  Reference.quote +:+ fst kv +:+ Reference.quote +:+ ":" +:+
  match snd kv with
  | JString v => Reference.quote +:+ v +:+ Reference.quote
  | _ => "null"
  end.

Definition JSON_stringify (j : JSON) : string :=
  match j with
  | JObject props => "{" +:+ String.concat "," (map member (map_to_list props)) +:+ "}"
  | _ => "null"
  end.

(** [JSON.parse] that knows the text of one record. *)
Definition JSON_parse_record (h : gmap string string) : string -> option JSON :=
  Reference.JSON_of_table [(JSON_stringify (JObject (JString <$> h)), JObject (JString <$> h))].

Definition statusText (n : Z) : string :=
  if n =? 200 then "OK"
  else if n =? 403 then "Forbidden"
  else if n =? 404 then "Not Found"
  else if n =? 500 then "Internal Server Error"
  else "".

(** A caller whose [fetch] rejects an answer that is not regular. *)
Definition irregular (r : ServerResponse) : Result Response :=
  Throws (Error "Failed to fetch").

End Browser.

(** ** The script *)

Definition ALLOWED_HOST_SUFFIXES : list string :=
  [ "developer.api.autodesk.com";
    "autodesk.com";
    "amazonaws.com";
    "cloudfront.net";
    "s3.amazonaws.com" ].

(** The header names [parseExtraHeaders] lets through. *)
Definition allowed : list string :=
  [ "authorization"; "x-ads-region"; "accept"; "content-type" ].

Definition timeoutMs : Z := 120000.

(** [Object.entries]: the properties of an object, the indexed items of
    an array. *)
Definition entries (obj : JSON) : list (string * JSON) :=
  match obj with
  | JObject props => map_to_list props
  | JArray items => imap (fun i v => (of_index i, v)) items
  | _ => []
  end.

(** One turn of the loop of [parseExtraHeaders]. *)
Definition keep_header (out : gmap string string) (kv : string * JSON) : gmap string string :=
  let lk := toLowerCase (fst kv) in
  match snd kv with
  | JString v => if includes allowed lk then <[fst kv := v]> out else out
  | _ => out
  end.

(** [obj && typeof obj === "object"]: [null] is falsy, and booleans,
    numbers and strings have another [typeof]; arrays are objects. *)
Definition is_object (v : JSON) : bool :=
  match v with
  | JObject _ | JArray _ => true
  | _ => false
  end.

(** A value of [req.headers] in a condition: an array is truthy. *)
Definition truthy_header (raw : HeaderValue) : bool :=
  match raw with
  | Single s => truthy s
  | Multi _ => true
  end.

(** [Array.isArray(raw) ? raw[0] : raw], as the string [JSON.parse]
    reads: [raw[0]] of an empty array is [undefined]. *)
Definition first_or_self (raw : HeaderValue) : string :=
  match raw with
  | Single s => s
  | Multi (s :: _) => s
  | Multi [] => "undefined"
  end.

(** [x || fallback] for a string that may be [null]. *)
Definition or_else (x : option string) (fallback : string) : string :=
  match x with
  | Some s => if truthy s then s else fallback
  | None => fallback
  end.

Section Relay.

(** The runtime: [new URL(input, base)] ([None] when it throws),
    [JSON.parse] ([None] when it throws) and the network. *)
Variable URL_new : string -> option string -> option URL.
Variable JSON_parse : string -> option JSON.
Variable network : OutboundCall -> Upstream.

Definition isAllowedTarget (targetUrl : string) : bool :=
  match URL_new targetUrl None with
  | Some u =>
      if negb (String.eqb (protocol u) "https:") && negb (String.eqb (protocol u) "http:")
      then false
      else
        let host := toLowerCase (hostname u) in
        existsb (fun suffix => String.eqb host suffix || endsWith host ("." +:+ suffix))
                ALLOWED_HOST_SUFFIXES
  | None => false
  end.

Definition setCors : M unit :=
  setHeader "Access-Control-Allow-Origin" "*" ;;
  setHeader "Access-Control-Allow-Methods" "POST,OPTIONS" ;;
  setHeader "Access-Control-Allow-Headers" "Content-Type, X-Extra-Headers".

Definition parseExtraHeaders (req : IncomingMessage) : gmap string string :=
  match headers req !! "x-extra-headers" with
  | None => ∅
  | Some raw =>
      if negb (truthy_header raw) then ∅
      else
        match JSON_parse (first_or_self raw) with
        | Some obj =>
            if negb (is_object obj) then ∅
            else foldl keep_header ∅ (entries obj)
        | None => ∅
        end
  end.

(** [fetch(url, init)] under the signal of [proxyFetch]: a call that
    hangs is aborted when the timer fires and rejects with the reason. *)
Definition fetch (c : OutboundCall) : M Response :=
  fun w =>
    let w' := {| res := res w; calls := calls w ++ [c];
                 timers := timers w; next_timer := next_timer w;
                 timeouts := timeouts w |} in
    match network c with
    | Responds r => (Returns r, w')
    | Fails e => (Throws e, w')
    | Hangs => (Throws (signal c), w')
    end.

Definition proxyFetch (targetUrl method : string) (extraHeaders : gmap string string)
    (bodyBuffer : option (list byte)) : M Response :=
  let reason := Error "proxy timeout" in
  t <- setTimeout reason timeoutMs ;;
  try_finally
    (fetch {| call_url := targetUrl; call_method := method;
              call_headers := extraHeaders; call_body := bodyBuffer;
              redirect := "follow"; signal := reason |})
    (clearTimeout t).

(** [`http://${req.headers.host}`] *)
Definition base_of (req : IncomingMessage) : string :=
  "http://" +:+
  match headers req !! "host" with
  | Some (Single h) => h
  | Some (Multi hs) => String.concat "," hs
  | None => "undefined"
  end.

Definition new_URL (input : string) (base : option string) : M URL :=
  match URL_new input base with
  | Some u => ret u
  | None => throw invalid_url
  end.

(** The echo of an upstream response as diagnostic text. *)
Definition echo (upstream : Response) : M unit :=
  let text := text_or_empty upstream in
  set_statusCode (status upstream) ;;
  setHeader "Content-Type" "text/plain; charset=utf-8" ;;
  end_text (Text.slice0 2000 text).

(** The answer to a request without a target: [target] is [null] or
    the empty string. *)
Definition missing_url : M unit :=
  set_statusCode 400 ;; end_message "Missing ?url=".

(** The function given to [http.createServer]. [console.log] is left
    out. *)
Definition handler (req : IncomingMessage) : M unit :=
  try_catch
    (setCors ;;
     if String.eqb (method req) "OPTIONS" then
       (set_statusCode 204 ;; end_)
     else
       urlObj <- new_URL (url req) (Some (base_of req)) ;;
       let pathname := pathname urlObj in
       let target := searchParams_get urlObj "url" in
       if negb (String.eqb (method req) "POST") then
         (set_statusCode 405 ;; end_message "Only POST is supported")
       else
         match target with
         | None => missing_url
         | Some target =>
             if negb (truthy target) then missing_url
             else if negb (isAllowedTarget target) then
               (set_statusCode 403 ;;
                end_message "Target URL not allowed by proxy whitelist")
             else
               let extraHeaders := parseExtraHeaders req in
               if String.eqb pathname "/fetch" then
                 (upstream <- proxyFetch target "GET" extraHeaders None ;;
                  if negb (ok upstream) then echo upstream
                  else
                    (let ct := or_else (headers_get upstream "content-type")
                                       "application/octet-stream" in
                     setHeader "Content-Type" ct ;;
                     match headers_get upstream "content-length" with
                     | Some cl => if truthy cl then setHeader "Content-Length" cl else ret tt
                     | None => ret tt
                     end ;;
                     set_statusCode 200 ;;
                     match body upstream with
                     | None => end_
                     | Some s => pipe s
                     end))
               else if String.eqb pathname "/upload" then
                 (buf <- readRequestBody req ;;
                  upstream <- proxyFetch target "PUT" extraHeaders (Some buf) ;;
                  echo upstream)
               else
                 (set_statusCode 404 ;;
                  end_message "Not found. Use POST /fetch?url=... or POST /upload?url=...")
         end)
    (fun e =>
       set_statusCode 500 ;;
       setHeader "Content-Type" "text/plain; charset=utf-8" ;;
       end_message ("Proxy error: " +:+
                    (if truthy (message e) then message e else as_string e))).

(** A request served from a fresh [res]. *)
Definition fresh : World :=
  {| res := {| statusCode := 200; out_headers := ∅; sent := None |};
     calls := []; timers := ∅; next_timer := 0; timeouts := [] |}.

Definition serve (req : IncomingMessage) : World := snd (handler req fresh).

(** The call [proxyFetch] makes for a request. *)
Definition outbound (req : IncomingMessage) (target method : string)
    (bodyBuffer : option (list byte)) : OutboundCall :=
  {| call_url := target; call_method := method;
     call_headers := parseExtraHeaders req; call_body := bodyBuffer;
     redirect := "follow"; signal := Error "proxy timeout" |}.

(** The request without its [X-Extra-Headers] header. *)
Definition without_extra_headers (req : IncomingMessage) : IncomingMessage :=
  {| method := method req; url := url req;
     headers := delete "x-extra-headers" (headers req);
     upload := upload req |}.

(** What the handler has written once an upstream response is echoed. *)
Definition echoed (w : World) (r : Response) : Prop :=
  statusCode (res w) = status r /\
  out_headers (res w) !! "content-type" = Some "text/plain; charset=utf-8" /\
  sent (res w) = Some (Ended (Text.utf8_encode (Text.slice0 2000 (text_or_empty r)))).

(** The suffix test of [isAllowedTarget], as a relation. *)
Definition host_matches (host suffix : string) : Prop :=
  toLowerCase host = suffix \/ exists sub, toLowerCase host = sub +:+ "." +:+ suffix.

(** ** [readRequestBody], by the events of the request

    The promise of [readRequestBody] listens to [data], [end] and
    [error].  [collect] follows the events in the order they are
    emitted: a chunk is pushed, [end] resolves with the concatenation of
    the chunks, [error] rejects, and a settled promise stays as it is.
    [None] is a promise that no event has settled. *)

Inductive StreamEvent :=
| OnData (chunk : list byte)
| OnEnd
| OnError (e : JSError).

Fixpoint collect (chunks : list (list byte)) (events : list StreamEvent) : option Stream :=
  match events with
  | [] => None
  | OnData c :: rest => collect (chunks ++ [c]) rest
  | OnEnd :: _ => Some (Delivers (concat chunks))
  | OnError e :: _ => Some (Breaks e)
  end.

Definition readRequestBody_events (events : list StreamEvent) : option Stream :=
  collect [] events.

(** ** The callers of the relay

    [App.tsx] reaches the relay through [proxyFetchBlob], with the
    headers of [authHeaders], under [withRetry]; the viewer page reaches
    it through [proxyDownloadBlob], with a URL made of the fields of
    [parseFormaUrn]. *)

(** [authHeaders(token, region)] *)
Definition authHeaders (token : string) (region : option string) : gmap string string :=
  let h : gmap string string := {[ "Authorization" := "Bearer " +:+ token ]} in
  match region with
  | Some r => if truthy r then <["X-Ads-Region" := r]> h else h
  | None => h
  end.

(** The [extraHeaders] that [proxyDownloadBlob] builds. *)
Definition downloadHeaders (token : string) (region : option string) : gmap string string :=
  let h0 : gmap string string := ∅ in
  let h1 := if truthy token then <["Authorization" := "Bearer " +:+ token]> h0 else h0 in
  match region with
  | Some r => if truthy r then <["X-Ads-Region" := r]> h1 else h1
  | None => h1
  end.

(** A [Record<string, string>] as the JSON value [JSON.stringify] is
    given. *)
Definition record_json (h : gmap string string) : JSON := JObject (JString <$> h).

(** [String(n)] for a status code. *)
Definition of_status (n : Z) : string := NilEmpty.string_of_int (Z.to_int n).

(** A text in the form messages are kept in. *)
Definition of_text (t : list Text.code_unit) : string :=
  string_of_list_byte (Text.utf8_encode t).

(** What thrown [undefined] is. *)
Definition undefined : JSError := {| message := ""; as_string := "undefined" |}.

(** [urn.split(":")] and [parts[i] ?? ""]. *)
Definition split_colon (s : string) : list string := Reference.fields ":" s.
Definition part (parts : list string) (i : nat) : string := default "" (parts !! i).

(** A field of a URN: a string without a colon. *)
Definition colon_free (s : string) : Prop := ~ In ":"%char (list_ascii_of_string s).

(** [parts.join(":")] *)
Definition join_colon (parts : list string) : string := String.concat ":" parts.

(** [parseFormaUrn(urn)] *)
Record FormaUrn := {
  kind : string; authcontext : string; elementId : string; revision : string }.

Definition parseFormaUrn (urn : string) : FormaUrn :=
  let p := split_colon urn in
  {| kind := part p 2; authcontext := part p 3; elementId := part p 4; revision := part p 5 |}.

(** [parts.indexOf(x)]: [None] for -1. *)
Fixpoint indexOf (parts : list string) (x : string) : option nat :=
  match parts with
  | [] => None
  | y :: rest => if String.eqb y x then Some 0%nat else S <$> indexOf rest x
  end.

(** [parseProposalIdFromUrn(proposalUrn)] *)
Definition parseProposalIdFromUrn (proposalUrn : string) : string :=
  let parts := split_colon proposalUrn in
  match indexOf parts "proposal" with
  | Some idx => part parts (idx + 2)
  | None => ""
  end.

(** The number that an integer becomes as a JavaScript number: the
    nearest integer with 53 significant bits, the even one of two that
    are as near.  An integer of at most 53 bits is kept. *)
Definition double (x : Z) : Z :=
  let n := Z.abs x in
  if n <? 2 ^ 53 then x
  else
    let e := Z.log2 n - 52 in
    let q := Z.shiftr n e in
    let rest := Z.land n (Z.ones e) in
    let half := 2 ^ (e - 1) in
    let q' := if rest <? half then q
              else if half <? rest then q + 1
              else if Z.even q then q else q + 1 in
    Z.sgn x * (q' * 2 ^ e).

(** [withRetry(fn, tries, backoffMs)], for [tries] and [backoffMs] that
    are integers of at most 2^53 in absolute value.  [fn] is given by
    what its successive calls settle to.  The loop runs on [fuel];
    [lastErr] starts as [undefined].  The result comes with the number
    of calls of [fn] and the delays given to [setTimeout], in order: the
    product [backoffMs * (i + 1)] as a JavaScript number. *)
Fixpoint retry_loop {A} (fn : nat -> Result A) (tries backoffMs : Z)
    (i : Z) (lastErr : JSError) (fuel : nat) : Result A * nat * list Z :=
  match fuel with
  | O => (Throws lastErr, O, [])
  | S fuel' =>
      if i <=? tries then
        match fn (Z.to_nat i) with
        | Returns a => (Returns a, 1%nat, [])
        | Throws e =>
            if i =? tries then (Throws e, 1%nat, [])
            else
              let '(r, n, slept) := retry_loop fn tries backoffMs (i + 1) e fuel' in
              (r, S n, double (backoffMs * (i + 1)) :: slept)
        end
      else (Throws lastErr, O, [])
  end.

Definition withRetry {A} (fn : nat -> Result A) (tries backoffMs : Z)
  : Result A * nat * list Z :=
  retry_loop fn tries backoffMs 0 undefined (Z.to_nat (tries + 2)).

(** The browser side of the runtime: [encodeURIComponent],
    [JSON.stringify] and the reason phrase of a status. *)
Variable encodeURIComponent : string -> string.
Variable JSON_stringify : JSON -> string.
Variable statusText : Z -> string.

(** The request the relay at [host] receives from
    [fetch(`${PROXY_BASE}/fetch?url=${encodeURIComponent(url)}`, ...)],
    for [PROXY_BASE] = [http://host]: a [POST] without body whose one
    header of the caller is [X-Extra-Headers]. *)
Definition proxyFetchBlob_request (host target : string) (extraHeaders : gmap string string)
  : IncomingMessage :=
  {| method := "POST";
     url := "/fetch?url=" +:+ encodeURIComponent target;
     headers := <["x-extra-headers" := Single (JSON_stringify (record_json extraHeaders))]>
                  {["host" := Single host]};
     upload := Delivers [] |}.

(** The bytes of an answer that the relay brings to an end: given to
    [res.end], or piped from a stream that ends. *)
Definition payload (r : ServerResponse) : option (list byte) :=
  match sent r with
  | Some (Ended data) => Some data
  | Some (Piped (Delivers data)) => Some data
  | Some (Piped (Breaks _)) => None
  | None => None
  end.

(** An answer is regular when the relay brings it to an end and the
    [Content-Length] it has set, if it has set one, is the length of the
    body in decimal digits.  Without a [Content-Length] of the script
    the server frames the body itself. *)
Definition regular (r : ServerResponse) : option (list byte) :=
  match payload r with
  | Some data =>
      match out_headers r !! "content-length" with
      | None => Some data
      | Some cl =>
          if String.eqb cl (of_status (Z.of_nat (length data))) then Some data else None
      end
  | None => None
  end.

(** What the caller's [fetch] settles to for an answer that is not
    regular (a body that has not the announced length, a pipe whose
    source breaks): the script does not decide it, the HTTP stacks of
    the server and of the caller do. *)
Variable irregular : ServerResponse -> Result Response.

(** What the caller's [fetch] settles to for an answer of the relay. *)
Definition arrives (r : ServerResponse) : Result Response :=
  match regular r with
  | Some data =>
      Returns {| status := statusCode r;
                 resp_headers := out_headers r;
                 body := Some (Delivers data) |}
  | None => irregular r
  end.

(** [res.text().catch(() => "")] in the caller, a browser: the text of
    the body, without one byte order mark. *)
Definition caller_text_or_empty (r : Response) : list Text.code_unit :=
  match body r with
  | None => []
  | Some (Delivers data) => Text.TextDecoder_decode data
  | Some (Breaks _) => []
  end.

(** [res.blob()], as the bytes of the blob. *)
Definition blob (r : Response) : Result (list byte) :=
  match body r with
  | Some (Delivers data) => Returns data
  | Some (Breaks e) => Throws e
  | None => Returns []
  end.

(** [proxyFetchBlob(url, extraHeaders)], from the answer on. *)
Definition proxyFetchBlob_settle (r : Response) : Result (list byte) :=
  if negb (ok r) then
    Throws (Error ("Proxy fetch " +:+ of_status (status r) +:+ " " +:+ statusText (status r)
                   +:+ ": " +:+ of_text (Text.slice0 400 (caller_text_or_empty r))))
  else blob r.

Definition proxyFetchBlob (host target : string) (extraHeaders : gmap string string)
  : Result (list byte) :=
  match arrives (res (serve (proxyFetchBlob_request host target extraHeaders))) with
  | Returns r => proxyFetchBlob_settle r
  | Throws e => Throws e
  end.

(** [proxyDownloadBlob(downloadUrl, token, region, proxyBase)], for
    [proxyBase] = [http://host]. *)
Definition proxyDownloadBlob_settle (r : Response) : Result (list byte) :=
  if negb (ok r) then
    Throws (Error ("proxyDownloadBlob failed: " +:+ of_status (status r) +:+ " "
                   +:+ statusText (status r) +:+ " "
                   +:+ of_text (Text.slice0 300 (caller_text_or_empty r))))
  else blob r.

Definition proxyDownloadBlob (downloadUrl token : string) (region : option string)
    (host : string) : Result (list byte) :=
  match arrives (res (serve (proxyFetchBlob_request host downloadUrl
                               (downloadHeaders token region)))) with
  | Returns r => proxyDownloadBlob_settle r
  | Throws e => Throws e
  end.

(** The CORS headers and an ended response. *)
Definition answered (w : World) : Prop :=
  out_headers (res w) !! "access-control-allow-origin" = Some "*" /\
  out_headers (res w) !! "access-control-allow-methods" = Some "POST,OPTIONS" /\
  out_headers (res w) !! "access-control-allow-headers"
    = Some "Content-Type, X-Extra-Headers" /\
  sent (res w) <> None.

(** The relay's view of the request of a caller. *)
Definition reaches (host target : string) (u : URL) : Prop :=
  URL_new ("/fetch?url=" +:+ encodeURIComponent target) (Some ("http://" +:+ host)) = Some u /\
  pathname u = "/fetch" /\
  searchParams_get u "url" = Some target.

(** The code point held by a decoder with an open sequence has as many
    bits as the bytes read so far can have given it. *)
Definition decoder_ok (d : Text.decoder) : Prop :=
  (Text.bytes_needed d = 0 \/
   (1 <= Text.bytes_needed d <= 3 /\
    Text.bytes_seen d < Text.bytes_needed d /\
    Text.code_point d < 2 ^ (6 * (Text.bytes_seen d + 1) - Text.bytes_needed d)))%N.

(** A Unicode scalar value: a code point that is no surrogate. *)
Definition scalar (cp : N) : Prop := (cp < 0xD800 \/ 0xE000 <= cp <= 0x10FFFF)%N.

(** What the error branch of the handler writes for a thrown [e]. *)
Definition failed (w : World) (e : JSError) : Prop :=
  statusCode (res w) = 500 /\
  out_headers (res w) !! "content-type" = Some "text/plain; charset=utf-8" /\
  sent (res w) =
    Some (Ended (list_byte_of_string
                   ("Proxy error: " +:+ (if truthy (message e) then message e else as_string e)))).

(** * Properties *)

(** ** Strings *)

Lemma endsWith_iff (s x : string) :
  endsWith s x = true <-> exists p, s = p +:+ x.
Proof.
  induction s as [|c s IH].
  - change (endsWith "" x) with (String.eqb "" x || false).
    rewrite orb_false_r, String.eqb_eq. split.
    + intros <-. by exists "".
    + intros [p Hp]. destruct p; simpl in Hp; [done | discriminate].
  - change (endsWith (String c s) x) with (String.eqb (String c s) x || endsWith s x).
    rewrite orb_true_iff, String.eqb_eq, IH. split.
    + intros [<- | [p ->]]; [by exists "" | by exists (String c p)].
    + intros [[|c' p] Hp]; simpl in Hp.
      * by left.
      * injection Hp as -> ->. right. by exists p.
Qed.

Lemma truthy_true (s : string) : truthy s = true <-> s <> "".
Proof.
  unfold truthy. rewrite negb_true_iff. split.
  - intros H ->. by rewrite String.eqb_refl in H.
  - intros H. by apply String.eqb_neq.
Qed.

Lemma includes_In (l : list string) (x : string) :
  includes l x = true <-> In x l.
Proof.
  unfold includes. rewrite existsb_exists. split.
  - intros [y [Hy Heq]]. apply String.eqb_eq in Heq. by subst.
  - intros H. exists x. split; [done | apply String.eqb_refl].
Qed.

(** ** The host allow-list *)

Lemma isAllowedTarget_parsed (targetUrl : string) (u : URL) :
  URL_new targetUrl None = Some u ->
  protocol u = "https:" \/ protocol u = "http:" ->
  isAllowedTarget targetUrl = true <->
  exists suffix, In suffix ALLOWED_HOST_SUFFIXES /\ host_matches (hostname u) suffix.
Proof.
  intros Hu Hp. unfold isAllowedTarget. rewrite Hu.
  assert (negb (protocol u =? "https:")%string && negb (protocol u =? "http:")%string = false) as ->.
  { destruct Hp as [-> | ->]; reflexivity. }
  rewrite existsb_exists. unfold host_matches.
  split; intros [suffix [Hin H]]; exists suffix; (split; [done |]).
  - apply orb_true_iff in H as [H | H].
    + left. by apply String.eqb_eq.
    + right. by apply endsWith_iff.
  - apply orb_true_iff. destruct H as [H | H].
    + left. by apply String.eqb_eq.
    + right. by apply endsWith_iff.
Qed.

(** ** The forwarded header set *)

Lemma to_uint_not_Nil (i : nat) : Nat.to_uint i <> Decimal.Nil.
Proof.
  rewrite <- (DecimalNat.Unsigned.of_to i) at 1.
  rewrite DecimalNat.Unsigned.to_of.
  apply DecimalFacts.unorm_nonnil.
Qed.

(** An array index is no header name. *)
Lemma of_index_not_allowed (i : nat) :
  includes allowed (toLowerCase (of_index i)) = false.
Proof.
  unfold of_index. pose proof (to_uint_not_Nil i) as H.
  destruct (Nat.to_uint i); [done | reflexivity ..].
Qed.

Lemma keep_header_skip (out : gmap string string) (k : string) (v : JSON) :
  includes allowed (toLowerCase k) = false -> keep_header out (k, v) = out.
Proof.
  intros H. unfold keep_header. cbn [fst snd]. rewrite H. by destruct v.
Qed.

Lemma foldl_keep_header_skip (l : list (string * JSON)) (out : gmap string string) :
  (forall k v, In (k, v) l -> includes allowed (toLowerCase k) = false) ->
  foldl keep_header out l = out.
Proof.
  revert out. induction l as [|[k v] l IH]; intros out H; [done |].
  simpl. rewrite keep_header_skip by (eapply H; left; reflexivity).
  apply IH. intros k' v' Hin. eapply H. right. exact Hin.
Qed.

Lemma entries_array_skipped (items : list JSON) (k : string) (v : JSON) :
  In (k, v) (entries (JArray items)) -> includes allowed (toLowerCase k) = false.
Proof.
  simpl. intros Hin. apply list_elem_of_In, list_elem_of_lookup in Hin as [i Hi].
  rewrite list_lookup_imap in Hi.
  destruct (items !! i); simpl in Hi; [| discriminate].
  injection Hi as <- _. apply of_index_not_allowed.
Qed.

(** The loop of [parseExtraHeaders] over entries with distinct keys:
    what a key holds at the end. *)
Lemma foldl_keep_header_lookup (l : list (string * JSON)) (out : gmap string string)
    (k v : string) :
  NoDup (l.*1) ->
  foldl keep_header out l !! k = Some v <->
  ((k, JString v) ∈ l /\ In (toLowerCase k) allowed) \/
  (out !! k = Some v /\
   ~ (exists v', (k, JString v') ∈ l /\ In (toLowerCase k) allowed)).
Proof.
  revert out. induction l as [|[k0 j0] l IH]; intros out Hnd.
  - simpl. split.
    + intros H. right. split; [done |]. intros [v' [Hin _]]. by apply elem_of_nil in Hin.
    + intros [[Hin _] | [H _]]; [by apply elem_of_nil in Hin | done].
  - apply NoDup_cons in Hnd as [Hk0 Hnd]. simpl in Hk0.
    change (foldl keep_header out ((k0, j0) :: l))
      with (foldl keep_header (keep_header out (k0, j0)) l).
    rewrite (IH _ Hnd). clear IH.
    assert (Hfresh : forall j, (k0, j) ∉ l).
    { intros j Hin. apply Hk0. apply list_elem_of_fmap. by exists (k0, j). }
    unfold keep_header; cbn [fst snd].
    destruct (decide (k0 = k)) as [-> | Hne].
    + destruct (includes allowed (toLowerCase k)) eqn:Hal.
      * apply includes_In in Hal.
        destruct j0; try (split;
          [ intros [[Hin _] | [Ho Hno]];
            [ by apply Hfresh in Hin
            | right; split; [done |]; intros [v' [Hin _]];
              apply elem_of_cons in Hin as [Heq | Hin];
              [ discriminate | by apply Hfresh in Hin ] ]
          | intros [[Hin _] | [Ho Hno]];
            [ apply elem_of_cons in Hin as [Heq | Hin];
              [ discriminate | by apply Hfresh in Hin ]
            | right; split; [done |]; intros [v' [Hin _]]; by apply Hfresh in Hin ] ]).
        rewrite lookup_insert_eq. split.
        -- intros [[Hin _] | [Ho Hno]]; [by apply Hfresh in Hin |].
           injection Ho as ->. left. split; [apply elem_of_cons; by left | done].
        -- intros [[Hin _] | [Ho Hno]].
           ++ apply elem_of_cons in Hin as [Heq | Hin]; [| by apply Hfresh in Hin].
              injection Heq as ->. right. split; [done |].
              intros [v' [Hin _]]. by apply Hfresh in Hin.
           ++ exfalso. apply Hno. exists s. split; [apply elem_of_cons; by left | done].
      * assert (Hnal : ~ In (toLowerCase k) allowed).
        { intros Hin. apply includes_In in Hin. congruence. }
        assert ((match j0 with JString _ => out | _ => out end) = out) as -> by (by destruct j0).
        split; (intros [[_ Hin] | [Ho _]]; [done |]); right; (split; [done |]);
          intros [_ [_ Hin]]; done.
    + assert (Hout : (match j0 with
                      | JString v0 =>
                          if includes allowed (toLowerCase k0) then <[k0:=v0]> out else out
                      | _ => out
                      end) !! k = out !! k).
      { destruct j0; try done.
        destruct (includes allowed (toLowerCase k0)); [| done].
        by apply lookup_insert_ne. }
      rewrite Hout.
      assert (Hcons : forall v', (k, JString v') ∈ (k0, j0) :: l <-> (k, JString v') ∈ l).
      { intros v'. rewrite elem_of_cons. split; [| by right].
        intros [Heq | Hin]; [| done]. injection Heq as -> _. done. }
      split.
      * intros [[Hin Hal] | [Ho Hno]].
        -- left. by rewrite Hcons.
        -- right. split; [done |]. intros [v' [Hin Hal]]. apply Hno.
           exists v'. by rewrite <- Hcons.
      * intros [[Hin Hal] | [Ho Hno]].
        -- left. by rewrite <- Hcons.
        -- right. split; [done |]. intros [v' [Hin Hal]]. apply Hno.
           exists v'. by rewrite Hcons.
Qed.

Lemma parseExtraHeaders_object (req : IncomingMessage) (raw : HeaderValue)
    (props : gmap string JSON) :
  headers req !! "x-extra-headers" = Some raw ->
  truthy_header raw = true ->
  JSON_parse (first_or_self raw) = Some (JObject props) ->
  forall k v, parseExtraHeaders req !! k = Some v <->
              props !! k = Some (JString v) /\ In (toLowerCase k) allowed.
Proof.
  intros Hraw Htr Hp k v. unfold parseExtraHeaders.
  rewrite Hraw, Htr, Hp. cbn [negb is_object entries].
  rewrite foldl_keep_header_lookup by apply NoDup_fst_map_to_list.
  rewrite elem_of_map_to_list, lookup_empty. split.
  - intros [H | [H _]]; [done | discriminate].
  - intros H. by left.
Qed.

(** ** The outbound calls of a request *)

(** Evaluation of the handler that leaves maps and strings folded. *)
Ltac run := cbn -[insert delete headers_get toLowerCase or_else truthy Text.utf8_encode
                  Text.utf8_decode Text.slice0 list_byte_of_string].
Ltac quiet := left; run; reflexivity.

(** A request makes no outbound call, or it is a validated [POST] and
    makes the one call of its operation. *)
Lemma serve_calls (req : IncomingMessage) :
  calls (serve req) = [] \/
  exists u target,
    method req = "POST" /\
    URL_new (url req) (Some (base_of req)) = Some u /\
    searchParams_get u "url" = Some target /\
    target <> "" /\
    isAllowedTarget target = true /\
    ((pathname u = "/fetch" /\ calls (serve req) = [outbound req target "GET" None]) \/
     (pathname u = "/upload" /\
      exists buf, upload req = Delivers buf /\
                  calls (serve req) = [outbound req target "PUT" (Some buf)])).
Proof.
  unfold serve, handler, new_URL, try_catch, bind.
  destruct (String.eqb (method req) "OPTIONS") eqn:Hopt; [quiet |].
  destruct (URL_new (url req) (Some (base_of req))) as [u|] eqn:Hu; [| quiet].
  unfold ret.
  destruct (String.eqb (method req) "POST") eqn:Hpost; [| quiet].
  destruct (searchParams_get u "url") as [target|] eqn:Ht; [| quiet].
  destruct (truthy target) eqn:Htr; [| quiet].
  destruct (isAllowedTarget target) eqn:Hal; [| quiet].
  apply String.eqb_eq in Hpost. apply truthy_true in Htr.
  destruct (String.eqb (pathname u) "/fetch") eqn:Hf.
  - right. exists u, target. apply String.eqb_eq in Hf.
    repeat (split; [done |]). left. split; [done |].
    unfold proxyFetch, fetch, try_finally, bind. run.
    fold (outbound req target "GET" None).
    destruct (network (outbound req target "GET" None)) as [r | e |]; run.
    + destruct (ok r); run; [| reflexivity].
      destruct (headers_get r "content-length") as [cl|]; run.
      * destruct (truthy cl); run; by destruct (body r).
      * by destruct (body r).
    + reflexivity.
    + reflexivity.
  - destruct (String.eqb (pathname u) "/upload") eqn:Hup; [| quiet].
    apply String.eqb_eq in Hup.
    unfold readRequestBody, read.
    destruct (upload req) as [buf | e] eqn:Hbuf; [| quiet].
    right. exists u, target. repeat (split; [done |]). right. split; [done |].
    exists buf. split; [done |].
    unfold proxyFetch, fetch, try_finally, bind. run.
    fold (outbound req target "PUT" (Some buf)).
    destruct (network (outbound req target "PUT" (Some buf))) as [r | e |]; run; reflexivity.
Qed.

(** ** Text *)

Lemma to_byte_of_byte (b : byte) : Text.to_byte (Text.of_byte b) = b.
Proof. unfold Text.to_byte, Text.of_byte. by rewrite Byte.of_to_N. Qed.

Lemma strip_bom_ascii (data : list byte) :
  Text.ascii_only data -> Text.strip_bom data = data.
Proof.
  intros H. destruct H as [|b data Hb _]; [done |].
  destruct b; try reflexivity. by vm_compute in Hb.
Qed.

Lemma decode_from_ascii (data : list byte) :
  Text.ascii_only data -> Text.decode_from Text.idle data = map Text.of_byte data.
Proof.
  induction 1 as [|b data Hb _ IH]; [done |].
  cbn [Text.decode_from map]. unfold Text.feed, Text.lead.
  change (Text.bytes_needed Text.idle =? 0)%N with true. cbv iota.
  assert ((Text.of_byte b <=? 127)%N = true) as -> by (apply N.leb_le; lia).
  by rewrite IH.
Qed.

Lemma utf16_ascii (data : list byte) :
  Text.ascii_only data ->
  concat (map Text.utf16 (map Text.of_byte data)) = map Text.of_byte data.
Proof.
  induction 1 as [|b data Hb _ IH]; [done |].
  cbn [map concat]. rewrite IH. unfold Text.utf16.
  assert ((Text.of_byte b <? 65536)%N = true) as -> by (apply N.ltb_lt; lia).
  done.
Qed.

Lemma utf8_decode_ascii (data : list byte) :
  Text.ascii_only data -> Text.utf8_decode data = map Text.of_byte data.
Proof.
  intros H. unfold Text.utf8_decode, Text.TextDecoder_decode.
  rewrite (strip_bom_ascii data H), (strip_bom_ascii data H).
  by rewrite decode_from_ascii, utf16_ascii.
Qed.

Lemma utf8_encode_ascii (data : list byte) :
  Text.ascii_only data -> Text.utf8_encode (map Text.of_byte data) = data.
Proof.
  induction 1 as [|b data Hb _ IH]; [done |].
  cbn [map Text.utf8_encode]. unfold Text.is_high, Text.is_low, Text.utf8.
  assert ((55296 <=? Text.of_byte b)%N = false) as -> by (apply N.leb_gt; lia).
  assert ((56320 <=? Text.of_byte b)%N = false) as -> by (apply N.leb_gt; lia).
  assert ((Text.of_byte b <? 128)%N = true) as -> by (apply N.ltb_lt; lia).
  cbn [andb]. by rewrite IH, to_byte_of_byte.
Qed.

Lemma ascii_only_take (n : nat) (data : list byte) :
  Text.ascii_only data -> Text.ascii_only (take n data).
Proof. apply Forall_take. Qed.

(** An ASCII body comes back cut to its first [n] bytes. *)
Lemma echo_ascii (n : nat) (data : list byte) :
  Text.ascii_only data ->
  Text.utf8_encode (Text.slice0 n (Text.utf8_decode data)) = take n data.
Proof.
  intros H. unfold Text.slice0. rewrite utf8_decode_ascii by done.
  change (map Text.of_byte data) with (Text.of_byte <$> data).
  rewrite <- fmap_take. by apply utf8_encode_ascii, ascii_only_take.
Qed.

(** ** The handler, branch by branch *)

(** The handler of a request whose method and URL are known. *)
Ltac enter Hmethod Hurl :=
  unfold serve, handler, new_URL, try_catch, bind;
  rewrite ?Hmethod, Hurl; unfold ret.

(** A [POST] with a target that is not allowed, on any path. *)
Lemma serve_disallowed (req : IncomingMessage) (u : URL) (target : string) :
  method req = "POST" ->
  URL_new (url req) (Some (base_of req)) = Some u ->
  searchParams_get u "url" = Some target ->
  target <> "" ->
  isAllowedTarget target = false ->
  statusCode (res (serve req)) = 403 /\
  sent (res (serve req)) =
    Some (Ended (list_byte_of_string "Target URL not allowed by proxy whitelist")) /\
  calls (serve req) = [].
Proof.
  intros Hm Hu Ht Hne Hal. apply truthy_true in Hne.
  enter Hm Hu. rewrite Ht, Hne, Hal. by run.
Qed.

(** A validated [/fetch] whose upstream call is answered. *)
Lemma serve_fetch_reply (req : IncomingMessage) (u : URL) (target : string) (r : Response) :
  method req = "POST" ->
  URL_new (url req) (Some (base_of req)) = Some u ->
  searchParams_get u "url" = Some target ->
  target <> "" ->
  isAllowedTarget target = true ->
  pathname u = "/fetch" ->
  network (outbound req target "GET" None) = Responds r ->
  (ok r = false -> echoed (serve req) r) /\
  (ok r = true ->
   statusCode (res (serve req)) = 200 /\
   sent (res (serve req)) =
     Some (match body r with Some stream => Piped stream | None => Ended [] end)).
Proof.
  intros Hm Hu Ht Hne Hal Hp Hnet. apply truthy_true in Hne.
  split; intros Hok.
  - enter Hm Hu. rewrite Ht, Hne, Hal, Hp.
    unfold proxyFetch, fetch, try_finally, bind. run.
    fold (outbound req target "GET" None). rewrite Hnet. run. rewrite Hok. run.
    unfold echoed. run. split; [done |]. split; [| done]. by vm_compute.
  - enter Hm Hu. rewrite Ht, Hne, Hal, Hp.
    unfold proxyFetch, fetch, try_finally, bind. run.
    fold (outbound req target "GET" None). rewrite Hnet. run. rewrite Hok. run.
    destruct (headers_get r "content-length") as [cl|]; run.
    + destruct (truthy cl); run; by destruct (body r).
    + by destruct (body r).
Qed.

(** A validated [/upload] whose body is read and whose upstream call is
    answered. *)
Lemma serve_upload_reply (req : IncomingMessage) (u : URL) (target : string)
    (buf : list byte) (r : Response) :
  method req = "POST" ->
  URL_new (url req) (Some (base_of req)) = Some u ->
  searchParams_get u "url" = Some target ->
  target <> "" ->
  isAllowedTarget target = true ->
  pathname u = "/upload" ->
  upload req = Delivers buf ->
  network (outbound req target "PUT" (Some buf)) = Responds r ->
  echoed (serve req) r.
Proof.
  intros Hm Hu Ht Hne Hal Hp Hbuf Hnet. apply truthy_true in Hne.
  enter Hm Hu. rewrite Ht, Hne, Hal, Hp.
  unfold readRequestBody, read. rewrite Hbuf.
  unfold proxyFetch, fetch, try_finally, bind. run.
  fold (outbound req target "PUT" (Some buf)). rewrite Hnet. run.
  unfold echoed. run. split; [done |]. split; [| done]. by vm_compute.
Qed.

(** A request that is neither [OPTIONS] nor [POST], on any path. *)
Lemma serve_not_POST (req : IncomingMessage) (u : URL) :
  method req <> "OPTIONS" ->
  method req <> "POST" ->
  URL_new (url req) (Some (base_of req)) = Some u ->
  statusCode (res (serve req)) = 405 /\
  sent (res (serve req)) = Some (Ended (list_byte_of_string "Only POST is supported")) /\
  calls (serve req) = [].
Proof.
  intros Ho Hp Hu. apply String.eqb_neq in Ho, Hp.
  unfold serve, handler, new_URL, try_catch, bind. rewrite Ho, Hu. unfold ret.
  rewrite Hp. by run.
Qed.

(** The handler reads a request through its method, its URL, its
    [Host] header, its extra headers and its body. *)
Lemma serve_ext (req req' : IncomingMessage) :
  method req = method req' ->
  url req = url req' ->
  upload req = upload req' ->
  base_of req = base_of req' ->
  parseExtraHeaders req = parseExtraHeaders req' ->
  serve req = serve req'.
Proof.
  intros Hm Hu Hb Hbase Hx. unfold serve, handler, readRequestBody.
  by rewrite Hm, Hu, Hb, Hbase, Hx.
Qed.

Lemma parseExtraHeaders_absent (req : IncomingMessage) :
  headers req !! "x-extra-headers" = None -> parseExtraHeaders req = ∅.
Proof. intros H. unfold parseExtraHeaders. by rewrite H. Qed.

Lemma parseExtraHeaders_unparsed (req : IncomingMessage) (raw : HeaderValue) :
  headers req !! "x-extra-headers" = Some raw ->
  JSON_parse (first_or_self raw) = None ->
  parseExtraHeaders req = ∅.
Proof.
  intros H Hp. unfold parseExtraHeaders. rewrite H, Hp.
  by destruct (negb (truthy_header raw)).
Qed.

Lemma parseExtraHeaders_not_object (req : IncomingMessage) (raw : HeaderValue) (v : JSON) :
  headers req !! "x-extra-headers" = Some raw ->
  JSON_parse (first_or_self raw) = Some v ->
  (forall props, v <> JObject props) ->
  parseExtraHeaders req = ∅.
Proof.
  intros H Hp Hv. unfold parseExtraHeaders. rewrite H, Hp.
  destruct (negb (truthy_header raw)); [done |].
  destruct v as [| b | n | t | items | props]; try done.
  - cbn [is_object negb]. apply foldl_keep_header_skip.
    intros k v. apply entries_array_skipped.
  - by destruct (Hv props).
Qed.

Lemma ok_iff (r : Response) : ok r = true <-> 200 <= status r <= 299.
Proof. unfold ok. rewrite andb_true_iff, !Z.leb_le. done. Qed.

(** ** The timer of [proxyFetch] *)

(** X24. [proxyFetch] asks [setTimeout] for one timer, of 120000 ms,
    whose firing aborts with [proxy timeout]; it makes one call, with
    the signal of that abort, and has cleared the timer when it returns
    or throws.  It resolves to the upstream response, rejects with the
    error of the network, or rejects with [proxy timeout] when the call
    is still pending as the timer fires. *)
Lemma proxyFetch_timer (targetUrl method : string) (extraHeaders : gmap string string)
    (bodyBuffer : option (list byte)) (w : World) :
  let c := {| call_url := targetUrl; call_method := method;
              call_headers := extraHeaders; call_body := bodyBuffer;
              redirect := "follow"; signal := Error "proxy timeout" |} in
  let run := proxyFetch targetUrl method extraHeaders bodyBuffer w in
  timeouts (snd run) =
    (timeouts w ++ [{| delay := 120000; on_fire := Error "proxy timeout" |}])%list /\
  timers (snd run) = delete (next_timer w) (timers w) /\
  calls (snd run) = (calls w ++ [c])%list /\
  res (snd run) = res w /\
  fst run = match network c with
            | Responds r => Returns r
            | Fails e => Throws e
            | Hangs => Throws (Error "proxy timeout")
            end.
Proof.
  unfold proxyFetch, setTimeout, fetch, try_finally, clearTimeout, bind. run.
  destruct (network _); run;
    (split; [done |]; split; [apply delete_insert_eq | done]).
Qed.

(** A validated request whose upstream call is still pending when the
    timer fires. *)
Lemma pending_call_500 (req : IncomingMessage) (u : URL) (target : string) :
  method req = "POST" ->
  URL_new (url req) (Some (base_of req)) = Some u ->
  searchParams_get u "url" = Some target ->
  target <> "" ->
  isAllowedTarget target = true ->
  (pathname u = "/fetch" /\ network (outbound req target "GET" None) = Hangs) \/
  (pathname u = "/upload" /\
   exists buf, upload req = Delivers buf /\
               network (outbound req target "PUT" (Some buf)) = Hangs) ->
  statusCode (res (serve req)) = 500 /\
  sent (res (serve req)) = Some (Ended (list_byte_of_string "Proxy error: proxy timeout")) /\
  timers (serve req) = ∅.
Proof.
  intros Hm Hu Ht Hne Hal Hcase. apply truthy_true in Hne.
  destruct Hcase as [(Hp & Hnet) | (Hp & buf & Hbuf & Hnet)].
  - enter Hm Hu. rewrite Ht, Hne, Hal, Hp.
    unfold proxyFetch, fetch, try_finally, bind. run.
    fold (outbound req target "GET" None). rewrite Hnet. run.
    repeat (split; [done |]). by rewrite delete_insert_eq, delete_empty.
  - assert (Hf : String.eqb (pathname u) "/fetch" = false) by by rewrite Hp.
    apply String.eqb_eq in Hp.
    enter Hm Hu. rewrite Ht, Hne, Hal, Hf, Hp.
    unfold readRequestBody, read. rewrite Hbuf.
    unfold proxyFetch, fetch, try_finally, bind. run.
    fold (outbound req target "PUT" (Some buf)). rewrite Hnet. run.
    repeat (split; [done |]). by rewrite delete_insert_eq, delete_empty.
Qed.

(** X25. A validated request whose upstream call is still pending when the
    timer fires is answered 500 with the message of the abort. *)
Lemma serve_timeout (req : IncomingMessage) (u : URL) (target : string) :
  method req = "POST" ->
  URL_new (url req) (Some (base_of req)) = Some u ->
  searchParams_get u "url" = Some target ->
  target <> "" ->
  isAllowedTarget target = true ->
  (pathname u = "/fetch" /\ network (outbound req target "GET" None) = Hangs) \/
  (pathname u = "/upload" /\
   exists buf, upload req = Delivers buf /\
               network (outbound req target "PUT" (Some buf)) = Hangs) ->
  statusCode (res (serve req)) = 500 /\
  sent (res (serve req)) = Some (Ended (list_byte_of_string "Proxy error: proxy timeout")) /\
  timers (serve req) = ∅.
Proof. apply pending_call_500. Qed.

(** Every branch of the handler leaves no timer set. *)
Lemma timers_cleared (req : IncomingMessage) : timers (serve req) = ∅.
Proof.
  unfold serve, handler, new_URL, try_catch, bind.
  destruct (String.eqb (method req) "OPTIONS"); [by run |].
  destruct (URL_new (url req) (Some (base_of req))) as [u|]; [| by run].
  unfold ret.
  destruct (String.eqb (method req) "POST"); [| by run].
  destruct (searchParams_get u "url") as [target|]; [| by run].
  destruct (truthy target); [| by run].
  destruct (isAllowedTarget target); [| by run].
  destruct (String.eqb (pathname u) "/fetch").
  - unfold proxyFetch, fetch, try_finally, bind. run.
    destruct (network _) as [r | e |]; run;
      try (by rewrite delete_insert_eq, delete_empty).
    destruct (ok r); run; [| by rewrite delete_insert_eq, delete_empty].
    destruct (headers_get r "content-length") as [cl|]; run.
    + destruct (truthy cl); run; destruct (body r); run;
        by rewrite delete_insert_eq, delete_empty.
    + destruct (body r); run; by rewrite delete_insert_eq, delete_empty.
  - destruct (String.eqb (pathname u) "/upload"); [| by run].
    unfold readRequestBody, read.
    destruct (upload req) as [buf | e]; [| by run].
    unfold proxyFetch, fetch, try_finally, bind. run.
    destruct (network _) as [r | e |]; run; by rewrite delete_insert_eq, delete_empty.
Qed.

(** X26. No timer outlives the handler. *)
Lemma serve_timers (req : IncomingMessage) : timers (serve req) = ∅.
Proof. apply timers_cleared. Qed.


(** A validated request makes the one call of its operation. *)
Lemma validated_call (req : IncomingMessage) (u : URL) (target : string) :
  method req = "POST" ->
  URL_new (url req) (Some (base_of req)) = Some u ->
  searchParams_get u "url" = Some target ->
  target <> "" ->
  isAllowedTarget target = true ->
  (pathname u = "/fetch" -> calls (serve req) = [outbound req target "GET" None]) /\
  (pathname u = "/upload" -> forall buf, upload req = Delivers buf ->
     calls (serve req) = [outbound req target "PUT" (Some buf)]).
Proof.
  intros Hm Hu Ht Hne Hal. apply truthy_true in Hne. split.
  - intros Hp. enter Hm Hu. rewrite Ht, Hne, Hal, Hp.
    unfold proxyFetch, fetch, try_finally, bind. run.
    fold (outbound req target "GET" None).
    destruct (network _); run; [| done | done].
    destruct (ok r); run; [| done].
    destruct (headers_get r "content-length") as [cl|]; run.
    + destruct (truthy cl); run; by destruct (body r).
    + by destruct (body r).
  - intros Hp buf Hbuf.
    assert (Hf : String.eqb (pathname u) "/fetch" = false) by by rewrite Hp.
    apply String.eqb_eq in Hp.
    enter Hm Hu. rewrite Ht, Hne, Hal, Hf, Hp.
    unfold readRequestBody, read. rewrite Hbuf.
    unfold proxyFetch, fetch, try_finally, bind. run.
    fold (outbound req target "PUT" (Some buf)).
    by destruct (network _).
Qed.

(** ** The claims *)

(** C1. A [POST] to [/fetch] or [/upload] whose [url] parameter is
    present and not empty, and whose target fails the allow-list check
    (no allowed host, another scheme, or no parse), is answered 403 and
    makes no outbound call. *)
Theorem disallowed_target_403 (req : IncomingMessage) (u : URL) (target : string) :
  method req = "POST" ->
  URL_new (url req) (Some (base_of req)) = Some u ->
  pathname u = "/fetch" \/ pathname u = "/upload" ->
  searchParams_get u "url" = Some target ->
  target <> "" ->
  isAllowedTarget target = false ->
  statusCode (res (serve req)) = 403 /\ calls (serve req) = [].
Proof.
  intros Hm Hu _ Ht Hne Hal.
  destruct (serve_disallowed req u target Hm Hu Ht Hne Hal) as (H1 & _ & H2).
  by split.
Qed.

(** C2. For an [X-Extra-Headers] header that decodes to a JSON object,
    the forwarded header set holds exactly the entries of the object
    whose key, lower-cased, is [authorization], [x-ads-region], [accept]
    or [content-type] and whose value is a string.  It is the header set
    of every outbound call of the request, and a validated request does
    make one call, to its target, that carries exactly these entries. *)
Theorem forwarded_headers_allow_listed (req : IncomingMessage) (raw : HeaderValue)
    (props : gmap string JSON) :
  headers req !! "x-extra-headers" = Some raw ->
  truthy_header raw = true ->
  JSON_parse (first_or_self raw) = Some (JObject props) ->
  (forall k v, parseExtraHeaders req !! k = Some v <->
               props !! k = Some (JString v) /\
               In (toLowerCase k) ["authorization"; "x-ads-region"; "accept"; "content-type"]) /\
  (forall c, In c (calls (serve req)) -> call_headers c = parseExtraHeaders req) /\
  (forall u target,
     method req = "POST" ->
     URL_new (url req) (Some (base_of req)) = Some u ->
     searchParams_get u "url" = Some target -> target <> "" ->
     isAllowedTarget target = true ->
     pathname u = "/fetch" \/ (pathname u = "/upload" /\ exists buf, upload req = Delivers buf) ->
     exists c, calls (serve req) = [c] /\ call_url c = target /\
       forall k v, call_headers c !! k = Some v <->
                   props !! k = Some (JString v) /\
                   In (toLowerCase k)
                      ["authorization"; "x-ads-region"; "accept"; "content-type"]).
Proof.
  intros Hraw Htr Hp.
  pose proof (parseExtraHeaders_object req raw props Hraw Htr Hp) as Hkept.
  split; [exact Hkept |]. split.
  - intros c Hin.
    destruct (serve_calls req) as [Hnil | (u & target & _ & _ & _ & _ & _ & Hcase)].
    { rewrite Hnil in Hin. destruct Hin. }
    destruct Hcase as [(_ & Hc) | (_ & buf & _ & Hc)];
      rewrite Hc in Hin; by destruct Hin as [<- | []].
  - intros u target Hm Hu Ht Hne Hal Hcase.
    destruct (validated_call req u target Hm Hu Ht Hne Hal) as [Hfetch Hupload].
    destruct Hcase as [Hp' | (Hp' & buf & Hbuf)].
    + exists (outbound req target "GET" None).
      split; [by apply Hfetch |]. split; [reflexivity | exact Hkept].
    + exists (outbound req target "PUT" (Some buf)).
      split; [by apply Hupload |]. split; [reflexivity | exact Hkept].
Qed.

(** C3. A hostname passes the host check exactly when, lower-cased, it
    is one of the allowed suffixes or ends with a dot followed by one
    of them; a hostname that only contains an allowed suffix, such as
    evil-amazonaws.com.attacker.net, is rejected. *)
Theorem host_check_exact_or_dot_suffix (targetUrl : string) (u : URL) :
  URL_new targetUrl None = Some u ->
  protocol u = "https:" \/ protocol u = "http:" ->
  (isAllowedTarget targetUrl = true <->
   exists suffix, In suffix ALLOWED_HOST_SUFFIXES /\
     (toLowerCase (hostname u) = suffix \/
      exists sub, toLowerCase (hostname u) = sub +:+ "." +:+ suffix))
  /\ (toLowerCase (hostname u) = "evil-amazonaws.com.attacker.net" ->
      isAllowedTarget targetUrl = false).
Proof.
  intros Hu Hp. split.
  - by apply isAllowedTarget_parsed.
  - intros Hh. unfold isAllowedTarget. rewrite Hu, Hh.
    destruct Hp as [-> | ->]; reflexivity.
Qed.

(** C4. An upstream response that is echoed (a non-success response on
    [/fetch], any response on [/upload]) comes back with the upstream
    status, as plain text.  The body is the UTF-8 form of the first 2000
    UTF-16 code units of the upstream body read as text, the whole text
    when it has no more than 2000 code units, and it is empty when the
    upstream response has no body or its body cannot be read.  For an
    upstream body of ASCII bytes that is its first 2000 bytes, never
    more than 2000 bytes. *)
Theorem upstream_echo_2000_code_units (req : IncomingMessage) (u : URL) (target : string)
    (r : Response) :
  method req = "POST" ->
  URL_new (url req) (Some (base_of req)) = Some u ->
  searchParams_get u "url" = Some target ->
  target <> "" ->
  isAllowedTarget target = true ->
  (pathname u = "/fetch" /\
   network (outbound req target "GET" None) = Responds r /\ ok r = false) \/
  (pathname u = "/upload" /\
   exists buf, upload req = Delivers buf /\
               network (outbound req target "PUT" (Some buf)) = Responds r) ->
  statusCode (res (serve req)) = status r /\
  out_headers (res (serve req)) !! "content-type" = Some "text/plain; charset=utf-8" /\
  (forall data, body r = Some (Delivers data) ->
     sent (res (serve req)) =
       Some (Ended (Text.utf8_encode (take 2000 (Text.utf8_decode data)))) /\
     ((length (Text.utf8_decode data) <= 2000)%nat ->
      sent (res (serve req)) = Some (Ended (Text.utf8_encode (Text.utf8_decode data))))) /\
  (body r = None \/ (exists e, body r = Some (Breaks e)) ->
   sent (res (serve req)) = Some (Ended [])) /\
  (forall data, body r = Some (Delivers data) -> Text.ascii_only data ->
     sent (res (serve req)) = Some (Ended (take 2000 data)) /\
     (length (take 2000 data) <= 2000)%nat).
Proof.
  intros Hm Hu Ht Hne Hal Hcase.
  assert (He : echoed (serve req) r).
  { destruct Hcase as [(Hp & Hnet & Hok) | (Hp & buf & Hbuf & Hnet)].
    - by apply (serve_fetch_reply req u target r).
    - by apply (serve_upload_reply req u target buf r). }
  destruct He as (H1 & H2 & H3). repeat (split; [done |]).
  unfold text_or_empty, Text.slice0 in H3. split; [| split].
  - intros data Hbody. rewrite Hbody in H3. split; [exact H3 |].
    intros Hlen. rewrite H3. by rewrite take_ge.
  - intros [Hbody | [e Hbody]]; rewrite Hbody in H3; exact H3.
  - intros data Hbody Hascii. rewrite Hbody in H3. split.
    + rewrite H3. do 2 f_equal. apply (echo_ascii 2000 data Hascii).
    + rewrite length_take. lia.
Qed.

(** C5. A [POST] to [/fetch] or [/upload] whose [url] parameter is
    missing or empty is answered 400, with no outbound call; a target
    that is not empty and does not parse as an absolute URL is answered
    403. *)
Theorem missing_target_400 (req : IncomingMessage) (u : URL) :
  method req = "POST" ->
  URL_new (url req) (Some (base_of req)) = Some u ->
  pathname u = "/fetch" \/ pathname u = "/upload" ->
  (searchParams_get u "url" = None \/ searchParams_get u "url" = Some "" ->
   statusCode (res (serve req)) = 400 /\
   sent (res (serve req)) = Some (Ended (list_byte_of_string "Missing ?url=")) /\
   calls (serve req) = []) /\
  (forall target,
     searchParams_get u "url" = Some target -> target <> "" ->
     URL_new target None = None ->
     statusCode (res (serve req)) = 403 /\ calls (serve req) = []).
Proof.
  intros Hm Hu Hp. split.
  - intros [Ht | Ht]; enter Hm Hu; rewrite Ht; by run.
  - intros target Ht Hne Hparse.
    assert (Hal : isAllowedTarget target = false).
    { unfold isAllowedTarget. by rewrite Hparse. }
    destruct (serve_disallowed req u target Hm Hu Ht Hne Hal) as (H1 & _ & H2).
    by split.
Qed.

(** C6. The handler looks at the method, then at the [url] parameter,
    then at the allow-list, and only then at the path.  A request other
    than [OPTIONS] whose URL does not parse against its [Host] header is
    answered 500.  When the URL parses, a request that is neither
    [OPTIONS] nor [POST] is answered 405 on every path, known or not; a
    [POST] whose path is neither [/fetch] nor [/upload] is answered 400
    when its [url] parameter is missing or empty, 403 when its target is
    not allowed, and 404 when its target is allowed.  None of these
    makes an outbound call. *)
Theorem unknown_path_404_after_method_and_target (req : IncomingMessage) :
  method req <> "OPTIONS" ->
  (URL_new (url req) (Some (base_of req)) = None ->
   statusCode (res (serve req)) = 500 /\ calls (serve req) = []) /\
  (forall u,
     URL_new (url req) (Some (base_of req)) = Some u ->
     (method req <> "POST" ->
      statusCode (res (serve req)) = 405 /\ calls (serve req) = []) /\
     (method req = "POST" ->
      pathname u <> "/fetch" -> pathname u <> "/upload" ->
      calls (serve req) = [] /\
      (searchParams_get u "url" = None \/ searchParams_get u "url" = Some "" ->
       statusCode (res (serve req)) = 400) /\
      (forall target,
         searchParams_get u "url" = Some target -> target <> "" ->
         (isAllowedTarget target = false -> statusCode (res (serve req)) = 403) /\
         (isAllowedTarget target = true ->
          statusCode (res (serve req)) = 404 /\
          sent (res (serve req)) =
            Some (Ended (list_byte_of_string
                           "Not found. Use POST /fetch?url=... or POST /upload?url=...")))))).
Proof.
  intros Ho. split.
  - intros Hu. apply String.eqb_neq in Ho.
    unfold serve, handler, new_URL, try_catch, bind. rewrite Ho, Hu. by run.
  - intros u Hu. split.
    + intros Hp. by destruct (serve_not_POST req u Ho Hp Hu) as (H & _ & H').
    + intros Hm Hf Hup. apply String.eqb_neq in Hf, Hup. split; [| split].
      * enter Hm Hu. destruct (searchParams_get u "url") as [target|]; [| by run].
        destruct (truthy target); [| by run].
        destruct (isAllowedTarget target); [| by run].
        rewrite Hf, Hup. by run.
      * intros [Ht | Ht]; enter Hm Hu; rewrite Ht; by run.
      * intros target Ht Hne. split; intros Hal.
        -- by destruct (serve_disallowed req u target Hm Hu Ht Hne Hal) as (H & _).
        -- apply truthy_true in Hne.
           enter Hm Hu. rewrite Ht, Hne, Hal, Hf, Hup. by run.
Qed.

(** C7. The method of the outbound call follows from the operation
    alone: a call made for [/fetch] is a [GET] without a body, a call
    made for [/upload] is a [PUT] whose body is the whole inbound body;
    and a validated request makes exactly that call. *)
Theorem outbound_method_fixed_per_operation (req : IncomingMessage) :
  (forall c, In c (calls (serve req)) ->
     exists u, URL_new (url req) (Some (base_of req)) = Some u /\
       ((pathname u = "/fetch" /\ call_method c = "GET" /\ call_body c = None) \/
        (pathname u = "/upload" /\ call_method c = "PUT" /\
         exists buf, upload req = Delivers buf /\ call_body c = Some buf))) /\
  (forall u target,
     method req = "POST" ->
     URL_new (url req) (Some (base_of req)) = Some u ->
     searchParams_get u "url" = Some target -> target <> "" ->
     isAllowedTarget target = true ->
     (pathname u = "/fetch" -> calls (serve req) = [outbound req target "GET" None]) /\
     (pathname u = "/upload" -> forall buf, upload req = Delivers buf ->
        calls (serve req) = [outbound req target "PUT" (Some buf)])).
Proof.
  pose proof (serve_calls req) as Hcalls. split.
  - intros c Hin.
    destruct Hcalls as [Hnil | (u & target & _ & Hu & _ & _ & _ & Hcase)].
    { rewrite Hnil in Hin. destruct Hin. }
    exists u. split; [done |].
    destruct Hcase as [(Hp & Hc) | (Hp & buf & Hbuf & Hc)];
      rewrite Hc in Hin; destruct Hin as [<- | []].
    + by left.
    + right. repeat (split; [done |]). by exists buf.
  - intros u target Hm Hu Ht Hne Hal.
    destruct Hcalls as [Hnil | (u' & target' & _ & Hu' & Ht' & _ & _ & Hcase)].
    + split.
      * intros Hp. exfalso. revert Hnil. apply truthy_true in Hne.
        enter Hm Hu. rewrite Ht, Hne, Hal, Hp.
        unfold proxyFetch, fetch, try_finally, bind. run.
        destruct (network _); run; [| done | done].
        destruct (ok r); run; [| done].
        destruct (headers_get r "content-length") as [cl|]; run.
        -- destruct (truthy cl); run; by destruct (body r).
        -- by destruct (body r).
      * intros Hp buf Hbuf. exfalso. revert Hnil. apply truthy_true in Hne.
        assert (Hf : String.eqb (pathname u) "/fetch" = false) by by rewrite Hp.
        apply String.eqb_eq in Hp.
        enter Hm Hu. rewrite Ht, Hne, Hal, Hf, Hp.
        unfold readRequestBody, read. rewrite Hbuf.
        unfold proxyFetch, fetch, try_finally, bind. run.
        destruct (network _); by run.
    + rewrite Hu in Hu'. injection Hu' as <-.
      rewrite Ht in Ht'. injection Ht' as <-.
      split.
      * intros Hp. destruct Hcase as [(_ & Hc) | (Hp' & _)]; [done |].
        rewrite Hp in Hp'. discriminate.
      * intros Hp buf Hbuf. destruct Hcase as [(Hp' & _) | (_ & buf' & Hbuf' & Hc)].
        -- rewrite Hp in Hp'. discriminate.
        -- rewrite Hbuf in Hbuf'. by injection Hbuf' as <-.
Qed.

(** C8. When the [X-Extra-Headers] header is absent, is not valid JSON,
    or does not decode to a JSON object, the forwarded header set is
    empty and the request is served as the same request without the
    header: it is not rejected for it. *)
Theorem malformed_extra_headers_ignored (req : IncomingMessage) :
  headers req !! "x-extra-headers" = None \/
  (exists raw, headers req !! "x-extra-headers" = Some raw /\
     (JSON_parse (first_or_self raw) = None \/
      exists v, JSON_parse (first_or_self raw) = Some v /\
                forall props, v <> JObject props)) ->
  parseExtraHeaders req = ∅ /\
  serve req = serve (without_extra_headers req).
Proof.
  intros H.
  assert (Hempty : parseExtraHeaders req = ∅).
  { destruct H as [H | (raw & Hraw & [Hp | (v & Hp & Hv)])].
    - by apply parseExtraHeaders_absent.
    - by apply (parseExtraHeaders_unparsed req raw).
    - by apply (parseExtraHeaders_not_object req raw v). }
  split; [done |].
  apply serve_ext; try done.
  - unfold base_of, without_extra_headers. cbn [headers].
    by rewrite lookup_delete_ne.
  - rewrite Hempty. symmetry. apply parseExtraHeaders_absent.
    unfold without_extra_headers. cbn [headers]. apply lookup_delete_eq.
Qed.


(** C10. On [/fetch], an upstream status from 200 to 299 is answered
    with status 200, whatever it is, and the upstream body is piped
    through; any other upstream status is echoed as it is. *)
Theorem fetch_success_answers_200 (req : IncomingMessage) (u : URL) (target : string)
    (r : Response) :
  method req = "POST" ->
  URL_new (url req) (Some (base_of req)) = Some u ->
  searchParams_get u "url" = Some target ->
  target <> "" ->
  isAllowedTarget target = true ->
  pathname u = "/fetch" ->
  network (outbound req target "GET" None) = Responds r ->
  (200 <= status r <= 299 ->
   statusCode (res (serve req)) = 200 /\
   sent (res (serve req)) =
     Some (match body r with Some stream => Piped stream | None => Ended [] end)) /\
  (~ 200 <= status r <= 299 -> statusCode (res (serve req)) = status r).
Proof.
  intros Hm Hu Ht Hne Hal Hp Hnet.
  destruct (serve_fetch_reply req u target r Hm Hu Ht Hne Hal Hp Hnet) as [Hecho Hpipe].
  split.
  - intros Hok. apply Hpipe. by apply ok_iff.
  - intros Hno. destruct (ok r) eqn:Hok.
    + exfalso. apply Hno. by apply ok_iff.
    + by destruct (Hecho eq_refl) as (H & _).
Qed.

(** ** More of the relay *)

(** The three headers of [setCors], as [res] holds them. *)
Lemma setCors_headers (w : World) :
  out_headers (res (snd (setCors w))) =
    <["access-control-allow-headers" := "Content-Type, X-Extra-Headers"]>
      (<["access-control-allow-methods" := "POST,OPTIONS"]>
         (<["access-control-allow-origin" := "*"]> (out_headers (res w)))).
Proof. reflexivity. Qed.

(** X1. An [OPTIONS] request is answered 204 with an empty body and the
    three CORS headers and nothing else, whatever its URL, its headers
    and its body, and makes no outbound call. *)
Theorem preflight_204 (req : IncomingMessage) :
  method req = "OPTIONS" ->
  statusCode (res (serve req)) = 204 /\
  sent (res (serve req)) = Some (Ended []) /\
  out_headers (res (serve req)) =
    <["access-control-allow-headers" := "Content-Type, X-Extra-Headers"]>
      (<["access-control-allow-methods" := "POST,OPTIONS"]>
         (<["access-control-allow-origin" := "*"]> ∅)) /\
  calls (serve req) = [] /\
  timers (serve req) = ∅.
Proof.
  intros Hm. unfold serve, handler, try_catch, bind. rewrite Hm. by run.
Qed.

Ltac answered_leaf := run; unfold answered; run; repeat split; (reflexivity || discriminate).

Lemma serve_answered (req : IncomingMessage) : answered (serve req).
Proof.
  unfold serve, handler, new_URL, try_catch, bind.
  destruct (String.eqb (method req) "OPTIONS"); [answered_leaf |].
  destruct (URL_new (url req) (Some (base_of req))) as [u|]; [| answered_leaf].
  unfold ret.
  destruct (String.eqb (method req) "POST"); [| answered_leaf].
  destruct (searchParams_get u "url") as [target|]; [| answered_leaf].
  destruct (truthy target); [| answered_leaf].
  destruct (isAllowedTarget target); [| answered_leaf].
  destruct (String.eqb (pathname u) "/fetch").
  - unfold proxyFetch, fetch, try_finally, bind. run.
    destruct (network _) as [r | e |]; [| answered_leaf | answered_leaf]. run.
    destruct (ok r); [| answered_leaf]. run.
    destruct (headers_get r "content-length") as [cl|]; run.
    + destruct (truthy cl); run; destruct (body r); answered_leaf.
    + destruct (body r); answered_leaf.
  - destruct (String.eqb (pathname u) "/upload"); [| answered_leaf].
    unfold readRequestBody, read.
    destruct (upload req) as [buf | e]; [| answered_leaf].
    unfold proxyFetch, fetch, try_finally, bind. run.
    destruct (network _) as [r | e |]; answered_leaf.
Qed.

(** X2. Every response of the relay carries the three CORS headers of
    [setCors]: no branch of the handler, the error branch included,
    removes or overwrites them. *)
Theorem cors_on_every_response (req : IncomingMessage) :
  out_headers (res (serve req)) !! "access-control-allow-origin" = Some "*" /\
  out_headers (res (serve req)) !! "access-control-allow-methods" = Some "POST,OPTIONS" /\
  out_headers (res (serve req)) !! "access-control-allow-headers"
    = Some "Content-Type, X-Extra-Headers".
Proof.
  destruct (serve_answered req) as (H1 & H2 & H3 & _). by repeat split.
Qed.

(** X4. A request makes at most one outbound call, and a call it makes
    goes to the value of its [url] parameter, which has passed
    [isAllowedTarget], with redirects followed. *)
Theorem outbound_only_to_allowed_target (req : IncomingMessage) :
  (length (calls (serve req)) <= 1)%nat /\
  forall c, In c (calls (serve req)) ->
    isAllowedTarget (call_url c) = true /\
    redirect c = "follow" /\
    exists u, URL_new (url req) (Some (base_of req)) = Some u /\
              searchParams_get u "url" = Some (call_url c).
Proof.
  destruct (serve_calls req) as [Hnil | (u & target & _ & Hu & Ht & _ & Hal & Hcase)].
  - rewrite Hnil. split; [simpl; lia | intros c []].
  - assert (Hc : exists m b, calls (serve req) = [outbound req target m b]).
    { destruct Hcase as [(_ & Hc) | (_ & buf & _ & Hc)]; eauto. }
    destruct Hc as (m & b & Hc). rewrite Hc. split; [simpl; lia |].
    intros c [<- | []]. repeat split; [done |]. by exists u.
Qed.

(** What the error branch of the handler writes for a thrown [e]. *)
Lemma serve_rejected_fetch (req : IncomingMessage) (u : URL) (target : string) (e : JSError) :
  method req = "POST" ->
  URL_new (url req) (Some (base_of req)) = Some u ->
  searchParams_get u "url" = Some target ->
  target <> "" ->
  isAllowedTarget target = true ->
  (pathname u = "/fetch" /\ network (outbound req target "GET" None) = Fails e) \/
  (pathname u = "/upload" /\
   exists buf, upload req = Delivers buf /\
               network (outbound req target "PUT" (Some buf)) = Fails e) ->
  failed (serve req) e.
Proof.
  intros Hm Hu Ht Hne Hal Hcase. apply truthy_true in Hne.
  destruct Hcase as [(Hp & Hnet) | (Hp & buf & Hbuf & Hnet)].
  - enter Hm Hu. rewrite Ht, Hne, Hal, Hp.
    unfold proxyFetch, fetch, try_finally, bind. run.
    fold (outbound req target "GET" None). rewrite Hnet. run.
    unfold failed. run. repeat split; reflexivity.
  - assert (Hf : String.eqb (pathname u) "/fetch" = false) by by rewrite Hp.
    apply String.eqb_eq in Hp.
    enter Hm Hu. rewrite Ht, Hne, Hal, Hf, Hp.
    unfold readRequestBody, read. rewrite Hbuf.
    unfold proxyFetch, fetch, try_finally, bind. run.
    fold (outbound req target "PUT" (Some buf)). rewrite Hnet. run.
    unfold failed. run. repeat split; reflexivity.
Qed.

(** X5. When the outbound call of a validated request is rejected (no
    connection, no name, a bad header value), the relay answers 500 as
    plain text with [Proxy error: ] followed by the message of the
    error, or by the error as a string when it has no message. *)
Theorem upstream_failure_500 (req : IncomingMessage) (u : URL) (target : string) (e : JSError) :
  method req = "POST" ->
  URL_new (url req) (Some (base_of req)) = Some u ->
  searchParams_get u "url" = Some target ->
  target <> "" ->
  isAllowedTarget target = true ->
  (pathname u = "/fetch" /\ network (outbound req target "GET" None) = Fails e) \/
  (pathname u = "/upload" /\
   exists buf, upload req = Delivers buf /\
               network (outbound req target "PUT" (Some buf)) = Fails e) ->
  statusCode (res (serve req)) = 500 /\
  out_headers (res (serve req)) !! "content-type" = Some "text/plain; charset=utf-8" /\
  sent (res (serve req)) =
    Some (Ended (list_byte_of_string
                   ("Proxy error: " +:+ (if truthy (message e) then message e else as_string e)))).
Proof.
  intros Hm Hu Ht Hne Hal Hcase.
  exact (serve_rejected_fetch req u target e Hm Hu Ht Hne Hal Hcase).
Qed.

(** X6. When the inbound body of a validated [/upload] cannot be read,
    the relay answers 500 with the message of the stream error and makes
    no outbound call: nothing is sent upstream for a request it could not
    buffer whole. *)
Theorem unread_upload_500 (req : IncomingMessage) (u : URL) (target : string) (e : JSError) :
  method req = "POST" ->
  URL_new (url req) (Some (base_of req)) = Some u ->
  searchParams_get u "url" = Some target ->
  target <> "" ->
  isAllowedTarget target = true ->
  pathname u = "/upload" ->
  upload req = Breaks e ->
  failed (serve req) e /\ calls (serve req) = [] /\ timers (serve req) = ∅.
Proof.
  intros Hm Hu Ht Hne Hal Hp Hbuf. apply truthy_true in Hne.
  assert (Hf : String.eqb (pathname u) "/fetch" = false) by by rewrite Hp.
  apply String.eqb_eq in Hp.
  enter Hm Hu. rewrite Ht, Hne, Hal, Hf, Hp.
  unfold readRequestBody, read. rewrite Hbuf. run.
  unfold failed. run. repeat split; reflexivity.
Qed.

(** X7. A request other than [OPTIONS] whose URL cannot be parsed
    against its [Host] header is answered 500, whatever its method, and
    makes no outbound call. *)
Theorem unparsable_request_url_500 (req : IncomingMessage) :
  method req <> "OPTIONS" ->
  URL_new (url req) (Some (base_of req)) = None ->
  failed (serve req) invalid_url /\ calls (serve req) = [].
Proof.
  intros Ho Hu. apply String.eqb_neq in Ho.
  unfold serve, handler, new_URL, try_catch, bind. rewrite Ho, Hu. run.
  unfold failed. run. repeat split; reflexivity.
Qed.

(** The headers of the answer to a successful [/fetch]. *)
Lemma fetch_success_headers_aux (req : IncomingMessage) (u : URL) (target : string)
    (r : Response) :
  method req = "POST" ->
  URL_new (url req) (Some (base_of req)) = Some u ->
  searchParams_get u "url" = Some target ->
  target <> "" ->
  isAllowedTarget target = true ->
  pathname u = "/fetch" ->
  network (outbound req target "GET" None) = Responds r ->
  ok r = true ->
  forall name,
    out_headers (res (serve req)) !! name =
      if String.eqb name "content-type" then
        Some (or_else (headers_get r "content-type") "application/octet-stream")
      else if String.eqb name "content-length" then
        match headers_get r "content-length" with
        | Some cl => if truthy cl then Some cl else None
        | None => None
        end
      else (<["access-control-allow-headers" := "Content-Type, X-Extra-Headers"]>
              (<["access-control-allow-methods" := "POST,OPTIONS"]>
                 (<["access-control-allow-origin" := "*"]> (∅ : gmap string string)))) !! name.
Proof.
  intros Hm Hu Ht Hne Hal Hp Hnet Hok name. apply truthy_true in Hne.
  enter Hm Hu. rewrite Ht, Hne, Hal, Hp.
  unfold proxyFetch, fetch, try_finally, bind. run.
  fold (outbound req target "GET" None). rewrite Hnet. run. rewrite Hok. run.
  assert (Hlow : toLowerCase "Content-Type" = "content-type") by reflexivity.
  assert (Hlow' : toLowerCase "Content-Length" = "content-length") by reflexivity.
  destruct (String.eqb name "content-type") eqn:Hct.
  - apply String.eqb_eq in Hct. subst name.
    destruct (headers_get r "content-length") as [cl|]; run.
    + destruct (truthy cl); run; destruct (body r); run;
        rewrite ?Hlow, ?Hlow'; rewrite ?lookup_insert_ne by done;
        by rewrite lookup_insert_eq.
    + destruct (body r); run; rewrite ?Hlow; by rewrite lookup_insert_eq.
  - apply String.eqb_neq in Hct.
    destruct (String.eqb name "content-length") eqn:Hcl.
    + apply String.eqb_eq in Hcl. subst name.
      destruct (headers_get r "content-length") as [cl|]; run.
      * destruct (truthy cl); run; destruct (body r); run;
          rewrite ?Hlow, ?Hlow'; rewrite ?lookup_insert_eq; try done;
          rewrite lookup_insert_ne by done; reflexivity.
      * destruct (body r); run; rewrite ?Hlow;
          rewrite lookup_insert_ne by done; reflexivity.
    + apply String.eqb_neq in Hcl.
      destruct (headers_get r "content-length") as [cl|]; run.
      * destruct (truthy cl); run; destruct (body r); run;
          rewrite ?Hlow, ?Hlow'; rewrite ?lookup_insert_ne by done; reflexivity.
      * destruct (body r); run; rewrite ?Hlow;
          rewrite ?lookup_insert_ne by done; reflexivity.
Qed.

(** X8. On a successful [/fetch] the relay passes two headers of the
    upstream response on and no other: [Content-Type], which is
    [application/octet-stream] when upstream gives none or an empty one,
    and [Content-Length], which is left out when upstream gives none or
    an empty one. *)
Theorem fetch_success_headers (req : IncomingMessage) (u : URL) (target : string)
    (r : Response) :
  method req = "POST" ->
  URL_new (url req) (Some (base_of req)) = Some u ->
  searchParams_get u "url" = Some target ->
  target <> "" ->
  isAllowedTarget target = true ->
  pathname u = "/fetch" ->
  network (outbound req target "GET" None) = Responds r ->
  ok r = true ->
  forall name,
    out_headers (res (serve req)) !! name =
      if String.eqb name "content-type" then
        Some (or_else (headers_get r "content-type") "application/octet-stream")
      else if String.eqb name "content-length" then
        match headers_get r "content-length" with
        | Some cl => if truthy cl then Some cl else None
        | None => None
        end
      else (<["access-control-allow-headers" := "Content-Type, X-Extra-Headers"]>
              (<["access-control-allow-methods" := "POST,OPTIONS"]>
                 (<["access-control-allow-origin" := "*"]> (∅ : gmap string string)))) !! name.
Proof. apply fetch_success_headers_aux. Qed.

(** X9. The relay reads the inbound headers [Host] and
    [X-Extra-Headers] and no other: two requests that agree on method,
    URL, body and these two headers are served alike, outbound call
    included.  The [Content-Type] of an upload, for one, reaches the
    target only through [X-Extra-Headers]. *)
Theorem other_inbound_headers_ignored (req req' : IncomingMessage) :
  method req = method req' ->
  url req = url req' ->
  upload req = upload req' ->
  headers req !! "host" = headers req' !! "host" ->
  headers req !! "x-extra-headers" = headers req' !! "x-extra-headers" ->
  serve req = serve req'.
Proof.
  intros Hm Hu Hb Hhost Hx. apply serve_ext; try done.
  - unfold base_of. by rewrite Hhost.
  - unfold parseExtraHeaders. by rewrite Hx.
Qed.

Lemma append_assoc (a b c : string) : (a +:+ b) +:+ c = a +:+ (b +:+ c).
Proof.
  induction a as [|x a IH]; [done |].
  change (String x ((a +:+ b) +:+ c) = String x (a +:+ (b +:+ c))). by rewrite IH.
Qed.

Lemma toLowerCase_append (a b : string) :
  toLowerCase (a +:+ b) = toLowerCase a +:+ toLowerCase b.
Proof.
  induction a as [|x a IH]; [done |].
  change (String (lower_ascii x) (toLowerCase (a +:+ b)) =
          String (lower_ascii x) (toLowerCase a +:+ toLowerCase b)).
  by rewrite IH.
Qed.

Lemma host_matches_sub (host host' sub suffix : string) :
  toLowerCase host' = sub +:+ "." +:+ toLowerCase host ->
  host_matches host suffix -> host_matches host' suffix.
Proof.
  intros Hh [Heq | [sub' Heq]]; right.
  - exists sub. by rewrite Hh, Heq.
  - exists (sub +:+ "." +:+ sub'). rewrite Hh, Heq.
    by rewrite !append_assoc.
Qed.

(** X10. The host check is closed under subdomains: when a target is
    allowed, a target of an allowed scheme whose hostname, lower-cased,
    ends with a dot and then the hostname of the first is allowed too. *)
Theorem subdomain_of_allowed_host_allowed (t t' : string) (u u' : URL) (sub : string) :
  URL_new t None = Some u ->
  URL_new t' None = Some u' ->
  protocol u' = "https:" \/ protocol u' = "http:" ->
  toLowerCase (hostname u') = sub +:+ "." +:+ toLowerCase (hostname u) ->
  isAllowedTarget t = true ->
  isAllowedTarget t' = true.
Proof.
  intros Hu Hu' Hp' Hsub Hal.
  assert (Hp : protocol u = "https:" \/ protocol u = "http:").
  { unfold isAllowedTarget in Hal. rewrite Hu in Hal.
    destruct (String.eqb (protocol u) "https:") eqn:H1.
    - left. by apply String.eqb_eq.
    - destruct (String.eqb (protocol u) "http:") eqn:H2; [| discriminate].
      right. by apply String.eqb_eq. }
  apply (isAllowedTarget_parsed t u Hu Hp) in Hal as (suffix & Hin & Hm).
  apply (isAllowedTarget_parsed t' u' Hu' Hp'). exists suffix. split; [done |].
  by apply (host_matches_sub (hostname u) (hostname u') sub).
Qed.

Ltac in_list := cbn [In]; first [ left; reflexivity | right; in_list ].

(** X11. Two of the five entries of [ALLOWED_HOST_SUFFIXES] add
    nothing: a target of an allowed scheme is allowed exactly when its
    hostname matches [autodesk.com], [amazonaws.com] or
    [cloudfront.net]; what [developer.api.autodesk.com] and
    [s3.amazonaws.com] let through, the shorter suffixes let through. *)
Theorem allow_list_is_three_suffixes (targetUrl : string) (u : URL) :
  URL_new targetUrl None = Some u ->
  protocol u = "https:" \/ protocol u = "http:" ->
  isAllowedTarget targetUrl = true <->
  exists suffix, In suffix ["autodesk.com"; "amazonaws.com"; "cloudfront.net"] /\
                 (toLowerCase (hostname u) = suffix \/
                  exists sub, toLowerCase (hostname u) = sub +:+ "." +:+ suffix).
Proof.
  intros Hu Hp. rewrite (isAllowedTarget_parsed targetUrl u Hu Hp).
  unfold host_matches. split.
  - intros (suffix & Hin & Hm). simpl in Hin.
    destruct Hin as [<- | [<- | [<- | [<- | [<- | []]]]]].
    + exists "autodesk.com". split; [in_list |]. right.
      destruct Hm as [-> | [sub ->]].
      * by exists "developer.api".
      * exists (sub +:+ ".developer.api"). by rewrite append_assoc.
    + exists "autodesk.com". split; [in_list | done].
    + exists "amazonaws.com". split; [in_list | done].
    + exists "cloudfront.net". split; [in_list | done].
    + exists "amazonaws.com". split; [in_list |]. right.
      destruct Hm as [-> | [sub ->]].
      * by exists "s3".
      * exists (sub +:+ ".s3"). by rewrite append_assoc.
  - intros (suffix & Hin & Hm). exists suffix. split; [| done].
    destruct Hin as [<- | [<- | [<- | []]]]; in_list.
Qed.

(** ** The size of an echoed body *)

(** Facts about text stand without the runtime of the relay. *)
Ltac standalone :=
  try clear URL_new; try clear JSON_parse; try clear network;
  try clear encodeURIComponent; try clear JSON_stringify; try clear statusText.

Local Open Scope N_scope.

Lemma lor_below_pow2 (a b n : N) :
  (a < 2 ^ n -> b < 2 ^ n -> N.lor a b < 2 ^ n)%N.
Proof.
  standalone. intros Ha Hb.
  destruct (N.eq_dec a 0) as [-> | Ha0]; [by rewrite N.lor_0_l |].
  destruct (N.eq_dec b 0) as [-> | Hb0]; [by rewrite N.lor_0_r |].
  assert (N.lor a b <> 0)%N as Hab.
  { intros H. apply N.lor_eq_0_iff in H as [H _]. done. }
  apply N.log2_lt_pow2; [lia |].
  rewrite N.log2_lor. apply N.max_lub_lt; apply N.log2_lt_pow2; lia.
Qed.

Lemma lead_ok (b : N) :
  decoder_ok (fst (Text.lead b)) /\ Forall (fun cp => (cp < 2 ^ 21)%N) (snd (Text.lead b)).
Proof.
  standalone. unfold Text.lead.
  destruct (b <=? 127)%N eqn:H1.
  { apply N.leb_le in H1. split; [by left |]. constructor; [| constructor].
    change (2 ^ 21)%N with 2097152%N. lia. }
  destruct ((194 <=? b) && (b <=? 223))%N.
  { split; [| constructor]. right. cbn.
    pose proof (N.land_le_r b 31). change (2 ^ (6 * (0 + 1) - 1))%N with 32%N. lia. }
  destruct ((224 <=? b) && (b <=? 239))%N.
  { split; [| constructor]. right. cbn.
    pose proof (N.land_le_r b 15). change (2 ^ (6 * (0 + 1) - 2))%N with 16%N. lia. }
  destruct ((240 <=? b) && (b <=? 244))%N.
  { split; [| constructor]. right. cbn.
    pose proof (N.land_le_r b 7). change (2 ^ (6 * (0 + 1) - 3))%N with 8%N. lia. }
  split; [by left |]. constructor; [| constructor]. by vm_compute.
Qed.

Lemma feed_ok (d : Text.decoder) (b : N) :
  decoder_ok d ->
  decoder_ok (fst (Text.feed d b)) /\
  Forall (fun cp => (cp < 2 ^ 21)%N) (snd (Text.feed d b)).
Proof.
  standalone. intros Hd. unfold Text.feed.
  destruct (Text.bytes_needed d =? 0)%N eqn:Hn; [apply lead_ok |].
  apply N.eqb_neq in Hn. destruct Hd as [Hd | (Hneed & Hseen & Hcp)]; [done |].
  destruct (negb _).
  { pose proof (lead_ok b) as [H1 H2]. destruct (Text.lead b) as [d' out].
    split; [done |]. constructor; [by vm_compute | done]. }
  set (bits := (6 * (Text.bytes_seen d + 1) - Text.bytes_needed d)%N) in *.
  assert (Hnew : (N.lor (N.shiftl (Text.code_point d) 6) (N.land b 63) < 2 ^ (bits + 6))%N).
  { apply lor_below_pow2.
    - rewrite N.shiftl_mul_pow2, N.pow_add_r.
      apply N.mul_lt_mono_pos_r; [by vm_compute | done].
    - pose proof (N.land_le_r b 63).
      assert (2 ^ 6 <= 2 ^ (bits + 6))%N by (apply N.pow_le_mono_r; lia).
      change (2 ^ 6)%N with 64%N in *. lia. }
  destruct (Text.bytes_seen d + 1 =? Text.bytes_needed d)%N eqn:Hlast.
  - apply N.eqb_eq in Hlast. split; [by left |]. constructor; [| constructor].
    eapply N.lt_le_trans; [exact Hnew |]. apply N.pow_le_mono_r; [lia |].
    unfold bits. lia.
  - apply N.eqb_neq in Hlast. split; [| constructor]. right. cbn.
    split; [done |]. split; [lia |].
    replace (6 * (Text.bytes_seen d + 1 + 1) - Text.bytes_needed d)%N with (bits + 6)%N
      by (unfold bits; lia).
    done.
Qed.

Lemma decode_from_below (d : Text.decoder) (bs : list byte) :
  decoder_ok d -> Forall (fun cp => (cp < 2 ^ 21)%N) (Text.decode_from d bs).
Proof.
  standalone. revert d. induction bs as [|b bs IH]; intros d Hd.
  - simpl. destruct (Text.bytes_needed d =? 0)%N; [constructor |].
    constructor; [by vm_compute | constructor].
  - cbn [Text.decode_from].
    pose proof (feed_ok d (Text.of_byte b) Hd) as [H1 H2].
    destruct (Text.feed d (Text.of_byte b)) as [d' out].
    apply Forall_app. split; [done | by apply IH].
Qed.

Lemma utf16_below (cp : N) :
  (cp < 2 ^ 21)%N -> Forall (fun u => (u < 65536)%N) (Text.utf16 cp).
Proof.
  standalone. intros H. change (2 ^ 21)%N with 2097152%N in H. unfold Text.utf16.
  destruct (cp <? 65536)%N eqn:Hlt.
  - apply N.ltb_lt in Hlt. by repeat constructor.
  - apply N.ltb_ge in Hlt. repeat constructor.
    + rewrite N.shiftr_div_pow2. change (2 ^ 10)%N with 1024%N.
      assert ((cp - 65536) / 1024 < 1984)%N by (apply N.Div0.div_lt_upper_bound; lia).
      lia.
    + pose proof (N.land_le_r (cp - 65536) 1023). lia.
Qed.

(** Every code unit of a decoded text has 16 bits. *)
Lemma utf8_decode_units (bs : list byte) :
  Forall (fun u => (u < 65536)%N) (Text.utf8_decode bs).
Proof.
  standalone. unfold Text.utf8_decode, Text.TextDecoder_decode.
  apply Forall_concat, Forall_forall.
  intros l Hl. apply list_elem_of_In, in_map_iff in Hl as (cp & <- & Hcp).
  apply utf16_below.
  pose proof (decode_from_below Text.idle (Text.strip_bom (Text.strip_bom bs))) as Hall.
  rewrite Forall_forall in Hall. apply Hall; [by left | by apply list_elem_of_In].
Qed.

Lemma utf8_length (cp : N) :
  (length (Text.utf8 cp) <= 4)%nat /\ ((cp < 65536)%N -> (length (Text.utf8 cp) <= 3)%nat).
Proof.
  standalone. unfold Text.utf8.
  destruct (cp <? 128)%N; [simpl; lia |].
  destruct (cp <? 2048)%N; [simpl; lia |].
  destruct (cp <? 65536)%N eqn:H; [simpl; lia |].
  apply N.ltb_ge in H. simpl. split; [lia |]. intros. lia.
Qed.

Lemma utf8_encode_length_upto (n : nat) (us : list Text.code_unit) :
  (length us <= n)%nat ->
  Forall (fun u => (u < 65536)%N) us ->
  (length (Text.utf8_encode us) <= 3 * length us)%nat.
Proof.
  standalone. revert us. induction n as [|n IH]; intros us Hn Hus.
  - destruct us; [simpl; lia | simpl in Hn; lia].
  - destruct us as [|u rest]; [simpl; lia |].
    apply Forall_cons in Hus as [Hu Hrest]. cbn [length] in Hn.
    assert (Hr : (length (Text.utf8_encode rest) <= 3 * length rest)%nat)
      by (apply IH; [lia | done]).
    assert (Hfffd : (length (Text.utf8 65533) <= 3)%nat) by (vm_compute; lia).
    cbn [Text.utf8_encode].
    destruct (Text.is_high u).
    + destruct rest as [|l rest'].
      * cbn [length]. lia.
      * destruct (Text.is_low l).
        -- apply Forall_cons in Hrest as [_ Hrest'].
           assert (Hr' : (length (Text.utf8_encode rest') <= 3 * length rest')%nat)
             by (apply IH; [cbn [length] in Hn; lia | done]).
           rewrite length_app.
           pose proof (utf8_length (65536 + N.shiftl (u - 55296) 10 + (l - 56320))) as [H4 _].
           cbn [length]. lia.
        -- rewrite length_app. cbn [length] in *. lia.
    + destruct (Text.is_low u).
      * rewrite length_app. cbn [length]. lia.
      * rewrite length_app. pose proof (utf8_length u) as [_ H3]. specialize (H3 Hu).
        cbn [length]. lia.
Qed.

(** A text takes at most three bytes for each of its code units. *)
Lemma utf8_encode_length (us : list Text.code_unit) :
  Forall (fun u => (u < 65536)%N) us ->
  (length (Text.utf8_encode us) <= 3 * length us)%nat.
Proof. standalone. by apply (utf8_encode_length_upto (length us)). Qed.

Local Close Scope N_scope.

(** X12. The body of an echoed upstream response never exceeds 6000
    bytes, whatever the upstream body is: at most 2000 code units of
    text, each written in at most three bytes. *)
Theorem upstream_echo_at_most_6000_bytes (req : IncomingMessage) (u : URL) (target : string)
    (r : Response) :
  method req = "POST" ->
  URL_new (url req) (Some (base_of req)) = Some u ->
  searchParams_get u "url" = Some target ->
  target <> "" ->
  isAllowedTarget target = true ->
  (pathname u = "/fetch" /\
   network (outbound req target "GET" None) = Responds r /\ ok r = false) \/
  (pathname u = "/upload" /\
   exists buf, upload req = Delivers buf /\
               network (outbound req target "PUT" (Some buf)) = Responds r) ->
  exists data, sent (res (serve req)) = Some (Ended data) /\ Z.of_nat (length data) <= 6000.
Proof.
  intros Hm Hu Ht Hne Hal Hcase.
  assert (He : echoed (serve req) r).
  { destruct Hcase as [(Hp & Hnet & Hok) | (Hp & buf & Hbuf & Hnet)].
    - by apply (serve_fetch_reply req u target r).
    - by apply (serve_upload_reply req u target buf r). }
  destruct He as (_ & _ & H3). eexists. split; [exact H3 |].
  assert (Hunits : Forall (fun u => (u < 65536)%N) (Text.slice0 2000 (text_or_empty r))).
  { unfold Text.slice0. apply Forall_take. unfold text_or_empty.
    destruct (body r) as [[data | e] |]; [apply utf8_decode_units | constructor ..]. }
  pose proof (utf8_encode_length _ Hunits) as Hlen.
  assert (length (Text.slice0 2000 (text_or_empty r)) <= 2000)%nat.
  { unfold Text.slice0. rewrite length_take. lia. }
  lia.
Qed.

(** ** [readRequestBody] *)

Lemma collect_data (cs : list (list byte)) (chunks : list (list byte))
    (rest : list StreamEvent) :
  collect chunks (map OnData cs ++ rest) = collect (chunks ++ cs) rest.
Proof.
  revert chunks. induction cs as [|c cs IH]; intros chunks.
  - by rewrite app_nil_r.
  - cbn [map app collect]. rewrite IH. by rewrite <- app_assoc.
Qed.

Lemma readRequestBody_concatenates_chunks_aux (cs : list (list byte)) :
  (forall later,
     readRequestBody_events (map OnData cs ++ OnEnd :: later) = Some (Delivers (concat cs))) /\
  (forall e later,
     readRequestBody_events (map OnData cs ++ OnError e :: later) = Some (Breaks e)).
Proof.
  unfold readRequestBody_events. split; intros; by rewrite collect_data.
Qed.

(** X13. [readRequestBody] resolves with the chunks of the request put
    end to end in the order they arrived, however the body was cut into
    chunks; it rejects when [error] comes before [end], whatever chunks
    came first; what is emitted after [end] or [error] changes nothing;
    and without [end] or [error] it never settles. *)
Theorem readRequestBody_concatenates_chunks (cs : list (list byte)) :
  (forall later,
     readRequestBody_events (map OnData cs ++ OnEnd :: later) = Some (Delivers (concat cs))) /\
  (forall e later,
     readRequestBody_events (map OnData cs ++ OnError e :: later) = Some (Breaks e)) /\
  readRequestBody_events (map OnData cs) = None.
Proof.
  unfold readRequestBody_events. repeat split; intros.
  - by rewrite collect_data.
  - by rewrite collect_data.
  - rewrite <- (app_nil_r (map OnData cs)). by rewrite collect_data.
Qed.

(** X14. A validated [/upload] whose body arrives as chunks forwards
    one [PUT] whose body is the chunks end to end; when the request
    breaks after some chunks, nothing is sent upstream and the answer is
    500. *)
Theorem upload_forwards_chunks_or_nothing (req : IncomingMessage) (u : URL) (target : string)
    (cs : list (list byte)) :
  method req = "POST" ->
  URL_new (url req) (Some (base_of req)) = Some u ->
  searchParams_get u "url" = Some target ->
  target <> "" ->
  isAllowedTarget target = true ->
  pathname u = "/upload" ->
  (forall later,
     readRequestBody_events (map OnData cs ++ OnEnd :: later) = Some (upload req) ->
     calls (serve req) = [outbound req target "PUT" (Some (concat cs))]) /\
  (forall e later,
     readRequestBody_events (map OnData cs ++ OnError e :: later) = Some (upload req) ->
     calls (serve req) = [] /\ statusCode (res (serve req)) = 500).
Proof.
  intros Hm Hu Ht Hne Hal Hp.
  destruct (readRequestBody_concatenates_chunks_aux cs) as (Hend & Herr).
  split.
  - intros later Hev. rewrite Hend in Hev. injection Hev as Hup.
    destruct (serve_calls req) as [Hnil | (u' & target' & _ & Hu' & Ht' & _ & _ & Hcase)].
    + exfalso. revert Hnil. apply truthy_true in Hne.
      assert (Hf : String.eqb (pathname u) "/fetch" = false) by by rewrite Hp.
      apply String.eqb_eq in Hp.
      enter Hm Hu. rewrite Ht, Hne, Hal, Hf, Hp.
      unfold readRequestBody, read. rewrite <- Hup.
      unfold proxyFetch, fetch, try_finally, bind. run.
      destruct (network _); by run.
    + rewrite Hu in Hu'. injection Hu' as <-. rewrite Ht in Ht'. injection Ht' as <-.
      destruct Hcase as [(Hp' & _) | (_ & buf & Hbuf & Hc)].
      * rewrite Hp in Hp'. discriminate.
      * rewrite <- Hup in Hbuf. by injection Hbuf as <-.
  - intros e later Hev. rewrite Herr in Hev. injection Hev as Hup. symmetry in Hup.
    apply truthy_true in Hne.
    assert (Hf : String.eqb (pathname u) "/fetch" = false) by by rewrite Hp.
    apply String.eqb_eq in Hp.
    enter Hm Hu. rewrite Ht, Hne, Hal, Hf, Hp.
    unfold readRequestBody, read. rewrite Hup. by run.
Qed.

(** ** The callers and the relay together *)

(** A record whose names are all let through comes out of the loop of
    [parseExtraHeaders] as it went in. *)
Lemma keep_all_headers (h : gmap string string) :
  (forall k v, h !! k = Some v -> In (toLowerCase k) allowed) ->
  foldl keep_header ∅ (entries (record_json h)) = h.
Proof.
  intros Hall. apply map_eq. intros k. apply option_eq. intros v.
  unfold record_json, entries.
  rewrite foldl_keep_header_lookup by apply NoDup_fst_map_to_list.
  rewrite elem_of_map_to_list, lookup_fmap, lookup_empty. split.
  - intros [[Hk _] | [Hk _]]; [| discriminate].
    destruct (h !! k) as [v'|]; simpl in Hk; [| discriminate]. by injection Hk as ->.
  - intros Hk. left. split; [by rewrite Hk | by apply (Hall k v)].
Qed.

Lemma authHeaders_names (token : string) (region : option string) (k v : string) :
  authHeaders token region !! k = Some v -> In (toLowerCase k) allowed.
Proof.
  unfold authHeaders. intros H.
  assert (Hk : k = "Authorization" \/ k = "X-Ads-Region").
  { destruct region as [r|]; [destruct (truthy r) |].
    - destruct (decide (k = "X-Ads-Region")) as [-> | Hne]; [by right |].
      rewrite lookup_insert_ne in H by done.
      apply lookup_singleton_Some in H as [<- _]. by left.
    - apply lookup_singleton_Some in H as [<- _]. by left.
    - apply lookup_singleton_Some in H as [<- _]. by left. }
  destruct Hk as [-> | ->]; [left | right; left]; reflexivity.
Qed.

Lemma downloadHeaders_names (token : string) (region : option string) (k v : string) :
  downloadHeaders token region !! k = Some v -> In (toLowerCase k) allowed.
Proof.
  unfold downloadHeaders. intros H.
  assert (Hk : k = "Authorization" \/ k = "X-Ads-Region").
  { destruct (decide (k = "X-Ads-Region")) as [-> | Hne]; [by right |].
    destruct (decide (k = "Authorization")) as [-> | Hne']; [by left |].
    exfalso.
    destruct region as [r|]; [destruct (truthy r) |]; destruct (truthy token);
      rewrite ?lookup_insert_ne in H by done; by rewrite lookup_empty in H. }
  destruct Hk as [-> | ->]; [left | right; left]; reflexivity.
Qed.

(** The extra headers the relay reads from the request of a caller,
    when [JSON.parse] gives back what [JSON.stringify] was given. *)
Lemma parseExtraHeaders_of_request (host target : string) (h : gmap string string) :
  JSON_stringify (record_json h) <> "" ->
  JSON_parse (JSON_stringify (record_json h)) = Some (record_json h) ->
  parseExtraHeaders (proxyFetchBlob_request host target h) =
  foldl keep_header ∅ (entries (record_json h)).
Proof.
  intros Hne Hrt. apply truthy_true in Hne.
  unfold parseExtraHeaders, proxyFetchBlob_request. cbn [headers].
  rewrite lookup_insert_eq. cbn [truthy_header first_or_self]. rewrite Hne, Hrt.
  reflexivity.
Qed.

Lemma caller_headers_forwarded_whole_aux (host target token : string) (region : option string)
    (h : gmap string string) :
  h = authHeaders token region \/ h = downloadHeaders token region ->
  JSON_stringify (record_json h) <> "" ->
  JSON_parse (JSON_stringify (record_json h)) = Some (record_json h) ->
  parseExtraHeaders (proxyFetchBlob_request host target h) = h.
Proof.
  intros Hh Hne Hrt. rewrite parseExtraHeaders_of_request by done.
  apply keep_all_headers. intros k v.
  destruct Hh as [-> | ->];
    [apply authHeaders_names | apply downloadHeaders_names].
Qed.

(** X15. The headers that [authHeaders] and [proxyDownloadBlob] build
    pass the sanitiser of the relay whole: the relay forwards exactly
    [Authorization] (and [X-Ads-Region] when a region is given), with
    the values the caller set. *)
Theorem caller_headers_forwarded_whole (host target token : string) (region : option string)
    (h : gmap string string) :
  h = authHeaders token region \/ h = downloadHeaders token region ->
  JSON_stringify (record_json h) <> "" ->
  JSON_parse (JSON_stringify (record_json h)) = Some (record_json h) ->
  parseExtraHeaders (proxyFetchBlob_request host target h) = h.
Proof. apply caller_headers_forwarded_whole_aux. Qed.

Lemma base_of_request (host target : string) (h : gmap string string) :
  base_of (proxyFetchBlob_request host target h) = "http://" +:+ host.
Proof.
  unfold base_of, proxyFetchBlob_request. cbn [headers].
  rewrite lookup_insert_ne by done. by rewrite lookup_singleton_eq.
Qed.

(** What the relay does with the request of a caller for an allowed
    target that upstream answers. *)
Lemma serve_request_reply (host target : string) (h : gmap string string) (u : URL)
    (r : Response) :
  reaches host target u ->
  target <> "" ->
  isAllowedTarget target = true ->
  network (outbound (proxyFetchBlob_request host target h) target "GET" None) = Responds r ->
  let w := serve (proxyFetchBlob_request host target h) in
  calls w = [outbound (proxyFetchBlob_request host target h) target "GET" None] /\
  (ok r = false -> echoed w r) /\
  (ok r = true ->
   statusCode (res w) = 200 /\
   sent (res w) = Some (match body r with Some stream => Piped stream | None => Ended [] end)).
Proof.
  intros (Hu & Hp & Ht) Hne Hal Hnet w.
  set (req := proxyFetchBlob_request host target h) in *.
  assert (Hu' : URL_new (url req) (Some (base_of req)) = Some u).
  { unfold req. by rewrite base_of_request. }
  split.
  - destruct (serve_calls req) as [Hnil | (u' & target' & _ & Hu'' & Ht' & _ & _ & Hcase)].
    + exfalso. revert Hnil. apply truthy_true in Hne.
      enter (eq_refl : method req = "POST") Hu'. rewrite Ht, Hne, Hal, Hp.
      unfold proxyFetch, fetch, try_finally, bind. run.
      destruct (network _) as [r' | e |]; run; [| done | done].
      destruct (ok r'); run; [| done].
      destruct (headers_get r' "content-length") as [cl|]; run.
      * destruct (truthy cl); run; by destruct (body r').
      * by destruct (body r').
    + rewrite Hu' in Hu''. injection Hu'' as <-. rewrite Ht in Ht'. injection Ht' as <-.
      destruct Hcase as [(_ & Hc) | (Hp' & _)]; [done |].
      rewrite Hp in Hp'. discriminate.
  - by apply (serve_fetch_reply req u target r).
Qed.

(** The script sets [Content-Length] on a successful [/fetch] and
    nowhere else. *)
Lemma content_length_only_on_success (req : IncomingMessage) (cl : string) :
  out_headers (res (serve req)) !! "content-length" = Some cl ->
  statusCode (res (serve req)) = 200.
Proof.
  unfold serve, handler, new_URL, try_catch, bind.
  destruct (String.eqb (method req) "OPTIONS"); [by run |].
  destruct (URL_new (url req) (Some (base_of req))) as [u|]; [| by run].
  unfold ret.
  destruct (String.eqb (method req) "POST"); [| by run].
  destruct (searchParams_get u "url") as [target|]; [| by run].
  destruct (truthy target); [| by run].
  destruct (isAllowedTarget target); [| by run].
  destruct (String.eqb (pathname u) "/fetch").
  - unfold proxyFetch, fetch, try_finally, bind. run.
    destruct (network _) as [r | e |]; [| by run | by run]. run.
    destruct (ok r); [| by run]. run.
    destruct (headers_get r "content-length") as [cl'|]; run.
    + destruct (truthy cl'); run; by destruct (body r).
    + by destruct (body r).
  - destruct (String.eqb (pathname u) "/upload"); [| by run].
    unfold readRequestBody, read.
    destruct (upload req) as [buf | e]; [| by run].
    unfold proxyFetch, fetch, try_finally, bind. run.
    destruct (network _) as [r | e |]; by run.
Qed.

(** An answer that is ended with another status than 200 is regular. *)
Lemma regular_ended (req : IncomingMessage) (data : list byte) :
  sent (res (serve req)) = Some (Ended data) ->
  statusCode (res (serve req)) <> 200 ->
  regular (res (serve req)) = Some data.
Proof.
  intros Hsent Hst. unfold regular, payload. rewrite Hsent.
  destruct (out_headers (res (serve req)) !! "content-length") as [cl|] eqn:Hcl; [| done].
  by apply content_length_only_on_success in Hcl.
Qed.

Lemma not_ok_not_200 (r : Response) : ok r = false -> status r <> 200.
Proof. unfold ok. intros H Hs. rewrite Hs in H. discriminate H. Qed.

(** X16. [proxyDownloadBlob] for an allowed download URL that upstream
    answers with a success status, and with no [Content-Length] or with
    the length of its body, resolves to the bytes of the upstream body,
    whatever the success status is; the relay has made one [GET] to the
    download URL carrying the headers the caller built. *)
Theorem proxyDownloadBlob_gives_upstream_bytes (downloadUrl token : string)
    (region : option string) (host : string) (u : URL) (r : Response) (data : list byte) :
  let h := downloadHeaders token region in
  let req := proxyFetchBlob_request host downloadUrl h in
  reaches host downloadUrl u ->
  downloadUrl <> "" ->
  isAllowedTarget downloadUrl = true ->
  JSON_stringify (record_json h) <> "" ->
  JSON_parse (JSON_stringify (record_json h)) = Some (record_json h) ->
  network (outbound req downloadUrl "GET" None) = Responds r ->
  ok r = true ->
  body r = Some (Delivers data) ->
  headers_get r "content-length" = None \/
  headers_get r "content-length" = Some "" \/
  headers_get r "content-length" = Some (of_status (Z.of_nat (length data))) ->
  proxyDownloadBlob downloadUrl token region host = Returns data /\
  exists c, calls (serve req) = [c] /\
            call_method c = "GET" /\ call_url c = downloadUrl /\ call_headers c = h.
Proof.
  intros h req Hreach Hne Hal Hs Hrt Hnet Hok Hbody Hcl.
  destruct (serve_request_reply host downloadUrl h u r Hreach Hne Hal Hnet)
    as (Hcalls & _ & Hpipe).
  destruct (Hpipe Hok) as [Hstatus Hsent]. rewrite Hbody in Hsent.
  fold req in Hstatus, Hsent. split.
  - destruct Hreach as (Hu & Hp & Ht).
    assert (Hu' : URL_new (url req) (Some (base_of req)) = Some u).
    { unfold req. by rewrite base_of_request. }
    pose proof (fetch_success_headers_aux req u downloadUrl r eq_refl Hu' Ht Hne Hal Hp
                  Hnet Hok "content-length") as Hlen.
    change (String.eqb "content-length" "content-type") with false in Hlen.
    change (String.eqb "content-length" "content-length") with true in Hlen.
    cbv iota in Hlen.
    assert (Hreg : regular (res (serve req)) = Some data).
    { unfold regular, payload. rewrite Hsent, Hlen.
      destruct Hcl as [-> | [-> | ->]]; [done | done |].
      destruct (truthy (of_status (Z.of_nat (length data)))); [| done].
      by rewrite String.eqb_refl. }
    unfold proxyDownloadBlob, arrives. fold h. fold req. rewrite Hreg.
    unfold proxyDownloadBlob_settle, blob, ok. cbn [status body].
    rewrite Hstatus. reflexivity.
  - eexists. split; [exact Hcalls |]. repeat split.
    cbn [outbound call_headers].
    apply (caller_headers_forwarded_whole_aux host downloadUrl token region h);
      [by right | done | done].
Qed.

(** X17. [proxyFetchBlob] never resolves to an error page: for a target
    the relay does not allow it throws with status 403 and nothing has
    been sent upstream, and for an allowed target that upstream answers
    with a status outside 200..299 it throws with that status. *)
Theorem proxyFetchBlob_throws_on_refusal (host target : string) (h : gmap string string)
    (u : URL) :
  reaches host target u ->
  target <> "" ->
  (isAllowedTarget target = false ->
   calls (serve (proxyFetchBlob_request host target h)) = [] /\
   exists text, proxyFetchBlob host target h =
     Throws (Error ("Proxy fetch 403 " +:+ statusText 403 +:+ ": " +:+ text))) /\
  (forall r,
     isAllowedTarget target = true ->
     network (outbound (proxyFetchBlob_request host target h) target "GET" None) = Responds r ->
     ok r = false ->
     exists text, proxyFetchBlob host target h =
       Throws (Error ("Proxy fetch " +:+ of_status (status r) +:+ " "
                      +:+ statusText (status r) +:+ ": " +:+ text))).
Proof.
  intros (Hu & Hp & Ht) Hne.
  set (req := proxyFetchBlob_request host target h).
  assert (Hu' : URL_new (url req) (Some (base_of req)) = Some u).
  { unfold req. by rewrite base_of_request. }
  split.
  - intros Hal.
    destruct (serve_disallowed req u target eq_refl Hu' Ht Hne Hal) as (Hst & Hsent & Hcalls).
    split; [done |]. eexists.
    unfold proxyFetchBlob, arrives. fold req.
    rewrite (regular_ended req _ Hsent) by (rewrite Hst; discriminate).
    unfold proxyFetchBlob_settle, ok. cbn [status]. rewrite Hst. reflexivity.
  - intros r Hal Hnet Hok.
    destruct (serve_request_reply host target h u r (conj Hu (conj Hp Ht)) Hne Hal Hnet)
      as (_ & Hecho & _).
    destruct (Hecho Hok) as (Hst & _ & Hsent). fold req in Hst, Hsent. eexists.
    unfold proxyFetchBlob, arrives. fold req.
    rewrite (regular_ended req _ Hsent) by (rewrite Hst; by apply not_ok_not_200).
    unfold proxyFetchBlob_settle. unfold ok in *. cbn [status]. rewrite Hst, Hok.
    reflexivity.
Qed.

(** ** [withRetry] *)

(** The delays slept before attempts [i+1] to [i+n]. *)
Lemma delays_step (backoffMs : Z) (i n : nat) :
  double (backoffMs * (Z.of_nat i + 1)) ::
    map (fun k => double (backoffMs * (Z.of_nat (S i + k) + 1))) (seq 0 n) =
  map (fun k => double (backoffMs * (Z.of_nat (i + k) + 1))) (seq 0 (S n)).
Proof.
  cbn [seq map]. rewrite Nat.add_0_r. f_equal.
  rewrite <- seq_shift, map_map. apply map_ext. intros k.
  by rewrite Nat.add_succ_comm.
Qed.

Lemma retry_loop_success {A} (fn : nat -> Result A) (tries backoffMs : Z) (n : nat) :
  forall (i : nat) (a : A) (lastErr : JSError) (fuel : nat),
    Z.of_nat (i + n) <= tries ->
    fn (i + n)%nat = Returns a ->
    (forall k, (k < n)%nat -> exists e, fn (i + k)%nat = Throws e) ->
    (n < fuel)%nat ->
    retry_loop fn tries backoffMs (Z.of_nat i) lastErr fuel =
      (Returns a, S n, map (fun k => double (backoffMs * (Z.of_nat (i + k) + 1))) (seq 0 n)).
Proof.
  induction n as [|n IH]; intros i a lastErr fuel Hle Hok Hfail Hfuel.
  - destruct fuel as [|fuel]; [lia |]. cbn [retry_loop].
    assert ((Z.of_nat i <=? tries) = true) as -> by (apply Z.leb_le; lia).
    rewrite Nat2Z.id. rewrite Nat.add_0_r in Hok. by rewrite Hok.
  - destruct fuel as [|fuel]; [lia |]. cbn [retry_loop].
    assert ((Z.of_nat i <=? tries) = true) as -> by (apply Z.leb_le; lia).
    rewrite Nat2Z.id.
    destruct (Hfail 0%nat ltac:(lia)) as [e He]. rewrite Nat.add_0_r in He. rewrite He.
    assert ((Z.of_nat i =? tries) = false) as -> by (apply Z.eqb_neq; lia).
    replace (Z.of_nat i + 1) with (Z.of_nat (S i)) by lia.
    rewrite (IH (S i) a e fuel).
    + replace (Z.of_nat (S i)) with (Z.of_nat i + 1) by lia. by rewrite delays_step.
    + replace (S i + n)%nat with (i + S n)%nat by lia. done.
    + replace (S i + n)%nat with (i + S n)%nat by lia. done.
    + intros k Hk. replace (S i + k)%nat with (i + S k)%nat by lia. apply Hfail. lia.
    + lia.
Qed.

Lemma retry_loop_exhausted {A} (fn : nat -> Result A) (tries backoffMs : Z) (n : nat) :
  forall (i : nat) (e : JSError) (lastErr : JSError) (fuel : nat),
    Z.of_nat (i + n) = tries ->
    fn (i + n)%nat = Throws e ->
    (forall k, (k < n)%nat -> exists e', fn (i + k)%nat = Throws e') ->
    (n < fuel)%nat ->
    retry_loop fn tries backoffMs (Z.of_nat i) lastErr fuel =
      (Throws e, S n, map (fun k => double (backoffMs * (Z.of_nat (i + k) + 1))) (seq 0 n)).
Proof.
  induction n as [|n IH]; intros i e lastErr fuel Hle Hlast Hfail Hfuel.
  - destruct fuel as [|fuel]; [lia |]. cbn [retry_loop].
    assert ((Z.of_nat i <=? tries) = true) as -> by (apply Z.leb_le; lia).
    rewrite Nat2Z.id. rewrite Nat.add_0_r in Hlast. rewrite Hlast.
    assert ((Z.of_nat i =? tries) = true) as -> by (apply Z.eqb_eq; lia). done.
  - destruct fuel as [|fuel]; [lia |]. cbn [retry_loop].
    assert ((Z.of_nat i <=? tries) = true) as -> by (apply Z.leb_le; lia).
    rewrite Nat2Z.id.
    destruct (Hfail 0%nat ltac:(lia)) as [e0 He]. rewrite Nat.add_0_r in He. rewrite He.
    assert ((Z.of_nat i =? tries) = false) as -> by (apply Z.eqb_neq; lia).
    replace (Z.of_nat i + 1) with (Z.of_nat (S i)) by lia.
    rewrite (IH (S i) e e0 fuel).
    + replace (Z.of_nat (S i)) with (Z.of_nat i + 1) by lia. by rewrite delays_step.
    + lia.
    + replace (S i + n)%nat with (i + S n)%nat by lia. done.
    + intros k Hk. replace (S i + k)%nat with (i + S k)%nat by lia. apply Hfail. lia.
    + lia.
Qed.

(** A product of at most 53 bits is exact. *)
Lemma double_exact (x : Z) : Z.abs x < 2 ^ 53 -> double x = x.
Proof. intros H. unfold double. apply Z.ltb_lt in H. by rewrite H. Qed.

Lemma delays_exact (backoffMs : Z) (j : nat) :
  Z.abs backoffMs * Z.of_nat j < 2 ^ 53 ->
  map (fun k => double (backoffMs * (Z.of_nat k + 1))) (seq 0 j)
  = map (fun k => backoffMs * (Z.of_nat k + 1)) (seq 0 j).
Proof.
  intros Hb. apply map_ext_in. intros k Hk. apply in_seq in Hk.
  apply double_exact. rewrite Z.abs_mul.
  rewrite (Z.abs_eq (Z.of_nat k + 1)) by lia.
  apply Z.le_lt_trans with (Z.abs backoffMs * Z.of_nat j); [| done].
  apply Z.mul_le_mono_nonneg_l; [apply Z.abs_nonneg | lia].
Qed.

(** X18. [withRetry] stops at the first call of [fn] that succeeds: when
    call number [j] (from 0, with [j <= tries]) is the first to resolve,
    [withRetry] resolves to its value after [j + 1] calls, having given
    [setTimeout] the delays [backoffMs * 1], ..., [backoffMs * j] between
    them, each product as a JavaScript number: exact when
    [|backoffMs| * j] is below 2^53, rounded to 53 bits otherwise. *)
Theorem withRetry_first_success {A} (fn : nat -> Result A) (tries backoffMs : Z)
    (j : nat) (a : A) :
  Z.of_nat j <= tries ->
  tries <= 2 ^ 53 ->
  Z.abs backoffMs <= 2 ^ 53 ->
  fn j = Returns a ->
  (forall k, (k < j)%nat -> exists e, fn k = Throws e) ->
  withRetry fn tries backoffMs =
    (Returns a, S j, map (fun k => double (backoffMs * (Z.of_nat k + 1))) (seq 0 j)) /\
  (Z.abs backoffMs * Z.of_nat j < 2 ^ 53 ->
   withRetry fn tries backoffMs =
     (Returns a, S j, map (fun k => backoffMs * (Z.of_nat k + 1)) (seq 0 j))).
Proof.
  intros Hle _ _ Hok Hfail.
  assert (H : withRetry fn tries backoffMs =
              (Returns a, S j,
               map (fun k => double (backoffMs * (Z.of_nat k + 1))) (seq 0 j))).
  { unfold withRetry.
    apply (retry_loop_success fn tries backoffMs j 0 a undefined); try done. lia. }
  split; [exact H |]. intros Hb. by rewrite H, delays_exact.
Qed.

(** X19. When every call fails, [withRetry] gives up after [tries + 1]
    calls and throws the error of the last one; it has asked for
    [tries] delays, [backoffMs * 1], ..., [backoffMs * tries], each
    product as a JavaScript number (exact when [|backoffMs| * tries] is
    below 2^53), and for none after the last failure. *)
Theorem withRetry_exhausted {A} (fn : nat -> Result A) (tries backoffMs : Z) (e : JSError) :
  0 <= tries ->
  tries <= 2 ^ 53 ->
  Z.abs backoffMs <= 2 ^ 53 ->
  fn (Z.to_nat tries) = Throws e ->
  (forall k, (k < Z.to_nat tries)%nat -> exists e', fn k = Throws e') ->
  withRetry fn tries backoffMs =
    (Throws e, S (Z.to_nat tries),
     map (fun k => double (backoffMs * (Z.of_nat k + 1))) (seq 0 (Z.to_nat tries))) /\
  (Z.abs backoffMs * tries < 2 ^ 53 ->
   withRetry fn tries backoffMs =
     (Throws e, S (Z.to_nat tries),
      map (fun k => backoffMs * (Z.of_nat k + 1)) (seq 0 (Z.to_nat tries)))).
Proof.
  intros Hle _ _ Hlast Hfail.
  assert (H : withRetry fn tries backoffMs =
              (Throws e, S (Z.to_nat tries),
               map (fun k => double (backoffMs * (Z.of_nat k + 1)))
                   (seq 0 (Z.to_nat tries)))).
  { unfold withRetry.
    apply (retry_loop_exhausted fn tries backoffMs (Z.to_nat tries) 0 e undefined);
      try done; cbn [Nat.add]; lia. }
  split; [exact H |]. intros Hb. rewrite H, delays_exact; [done |].
  by rewrite Z2Nat.id.
Qed.

(** X20. With a negative [tries], [withRetry] does not call [fn] at all
    and throws [undefined]. *)
Theorem withRetry_negative_tries {A} (fn : nat -> Result A) (tries backoffMs : Z) :
  tries < 0 ->
  withRetry fn tries backoffMs = (Throws undefined, 0%nat, []).
Proof.
  intros Hneg. unfold withRetry.
  destruct (Z.to_nat (tries + 2)) as [|fuel]; [done |]. cbn [retry_loop].
  assert ((0 <=? tries) = false) as -> by (apply Z.leb_gt; lia). done.
Qed.

(** ** The URN parsers *)

Lemma fields_colon_free (s : string) :
  colon_free s -> split_colon s = [s].
Proof.
  unfold split_colon, colon_free. induction s as [|c s IH]; intros H; [done |].
  cbn [Reference.fields]. cbn [list_ascii_of_string In] in H.
  destruct (Ascii.eqb c ":") eqn:Hc.
  - apply Ascii.eqb_eq in Hc. subst c. exfalso. apply H. by left.
  - rewrite IH; [done |]. intros Hin. apply H. by right.
Qed.

Lemma fields_cons (s rest : string) :
  colon_free s -> split_colon (s +:+ ":" +:+ rest) = s :: split_colon rest.
Proof.
  unfold split_colon, colon_free. induction s as [|c s IH]; intros H.
  - reflexivity.
  - change ((String c s) +:+ ":" +:+ rest) with (String c (s +:+ ":" +:+ rest)).
    cbn [Reference.fields]. cbn [list_ascii_of_string In] in H.
    destruct (Ascii.eqb c ":") eqn:Hc.
    + apply Ascii.eqb_eq in Hc. subst c. exfalso. apply H. by left.
    + rewrite IH; [done |]. intros Hin. apply H. by right.
Qed.

(** Splitting at the colons gives back the fields that were joined. *)
Lemma split_join (parts : list string) :
  parts <> [] -> Forall colon_free parts -> split_colon (join_colon parts) = parts.
Proof.
  unfold join_colon. induction parts as [|s parts IH]; intros Hne Hall; [done |].
  apply Forall_cons in Hall as [Hs Hall].
  destruct parts as [|t parts].
  - cbn [String.concat]. by apply fields_colon_free.
  - change (String.concat ":" (s :: t :: parts))
      with (s +:+ ":" +:+ String.concat ":" (t :: parts)).
    rewrite fields_cons by done. by rewrite IH.
Qed.

(** X21. [parseFormaUrn] reads the third to sixth field of a URN cut at
    its colons: of the URN made of any fields without colons it gives the
    fields at positions 2, 3, 4 and 5, the empty string for a position
    the URN does not have, and it ignores what follows the sixth field. *)
Theorem parseFormaUrn_of_fields (parts : list string) :
  parts <> [] ->
  Forall colon_free parts ->
  parseFormaUrn (join_colon parts) =
    {| kind := default "" (parts !! 2%nat);
       authcontext := default "" (parts !! 3%nat);
       elementId := default "" (parts !! 4%nat);
       revision := default "" (parts !! 5%nat) |}.
Proof.
  intros Hne Hall. unfold parseFormaUrn. by rewrite split_join.
Qed.

Lemma indexOf_first (pre : list string) (x : string) (rest : list string) :
  ~ In x pre -> indexOf (pre ++ x :: rest) x = Some (length pre).
Proof.
  induction pre as [|y pre IH]; intros Hnot.
  - cbn [app indexOf]. by rewrite String.eqb_refl.
  - cbn [app indexOf length].
    assert (String.eqb y x = false) as ->.
    { apply String.eqb_neq. intros ->. apply Hnot. by left. }
    rewrite IH; [done |]. intros Hin. apply Hnot. by right.
Qed.

Lemma indexOf_absent (parts : list string) (x : string) :
  ~ In x parts -> indexOf parts x = None.
Proof.
  induction parts as [|y parts IH]; intros Hnot; [done |].
  cbn [indexOf].
  assert (String.eqb y x = false) as ->.
  { apply String.eqb_neq. intros ->. apply Hnot. by left. }
  rewrite IH; [done |]. intros Hin. apply Hnot. by right.
Qed.

(** X22. [parseProposalIdFromUrn] gives the field two places after the
    first field that is [proposal]: the proposal id of
    [urn:...:proposal:<authcontext>:<proposalId>:...].  It gives the
    empty string when no field is [proposal] or when the URN ends before
    that place. *)
Theorem parseProposalIdFromUrn_of_fields (pre rest : list string) :
  Forall colon_free (pre ++ "proposal" :: rest) ->
  ~ In "proposal" pre ->
  parseProposalIdFromUrn (join_colon (pre ++ "proposal" :: rest)) = default "" (rest !! 1%nat) /\
  (pre <> [] -> Forall colon_free pre -> parseProposalIdFromUrn (join_colon pre) = "").
Proof.
  intros Hall Hnot. split.
  - unfold parseProposalIdFromUrn. rewrite split_join; [| by destruct pre | done].
    rewrite indexOf_first by done. unfold part.
    rewrite lookup_app_r by lia.
    replace (length pre + 2 - length pre)%nat with 2%nat by lia. reflexivity.
  - intros Hne Hpre. unfold parseProposalIdFromUrn. rewrite split_join by done.
    by rewrite indexOf_absent.
Qed.

(** ** The echo of a body of valid text *)

Local Open Scope N_scope.

Lemma land_mul_pow2_low (x n y : N) : y < 2 ^ n -> N.land (x * 2 ^ n) y = 0.
Proof.
  standalone. intros Hy. apply N.bits_inj. intros m. rewrite N.land_spec, N.bits_0.
  destruct (N.lt_ge_cases m n) as [Hm | Hm].
  - by rewrite N.mul_pow2_bits_low.
  - destruct (N.eq_dec y 0) as [-> | Hy0]; [by rewrite N.bits_0, andb_false_r |].
    rewrite (N.bits_above_log2 y m), andb_false_r; [done |].
    assert (N.log2 y < n) by (apply N.log2_lt_pow2; lia). lia.
Qed.

(** Below a power of two, [lor] with a multiple of it is a sum. *)
Lemma lor_add (x n y : N) : y < 2 ^ n -> N.lor (x * 2 ^ n) y = x * 2 ^ n + y.
Proof.
  standalone. intros Hy. pose proof (land_mul_pow2_low x n y Hy) as H0.
  by rewrite N.add_nocarry_lxor, N.lxor_lor.
Qed.

Lemma lor_C0 (y : N) : y < 32 -> N.lor 192 y = 192 + y.
Proof. standalone. intros H. apply (lor_add 6 5 y H). Qed.
Lemma lor_E0 (y : N) : y < 16 -> N.lor 224 y = 224 + y.
Proof. standalone. intros H. apply (lor_add 14 4 y H). Qed.
Lemma lor_F0 (y : N) : y < 8 -> N.lor 240 y = 240 + y.
Proof. standalone. intros H. apply (lor_add 30 3 y H). Qed.
Lemma lor_80 (y : N) : y < 64 -> N.lor 128 y = 128 + y.
Proof. standalone. intros H. apply (lor_add 2 6 y H). Qed.
Lemma lor_shl6 (c y : N) : y < 64 -> N.lor (N.shiftl c 6) y = c * 64 + y.
Proof. standalone. intros H. rewrite N.shiftl_mul_pow2. apply (lor_add c 6 y H). Qed.

Lemma land_low (x : N) :
  N.land x 63 = x mod 64 /\ N.land x 31 = x mod 32 /\ N.land x 15 = x mod 16 /\
  N.land x 7 = x mod 8 /\ N.land x 1023 = x mod 1024.
Proof.
  standalone. repeat split.
  - apply (N.land_ones x 6).
  - apply (N.land_ones x 5).
  - apply (N.land_ones x 4).
  - apply (N.land_ones x 3).
  - apply (N.land_ones x 10).
Qed.

Lemma shiftr_div (x : N) :
  N.shiftr x 6 = x / 64 /\ N.shiftr x 12 = x / 4096 /\ N.shiftr x 18 = x / 262144 /\
  N.shiftr x 10 = x / 1024.
Proof. standalone. repeat split; apply N.shiftr_div_pow2. Qed.

Ltac euclid := zify; Z.to_euclidean_division_equations; lia.

Lemma of_byte_to_byte (n : N) : n < 256 -> Text.of_byte (Text.to_byte n) = n.
Proof.
  standalone. intros H. unfold Text.of_byte, Text.to_byte.
  destruct (Byte.of_N n) as [b|] eqn:Hb.
  - by apply Byte.to_of_N.
  - apply Byte.of_N_None_iff in Hb. lia.
Qed.

(** The bytes of a code point, by its size. *)
Lemma utf8_2 (cp : N) : 128 <= cp < 2048 ->
  Text.utf8 cp = [Text.to_byte (192 + cp / 64); Text.to_byte (128 + cp mod 64)].
Proof.
  standalone. intros H. unfold Text.utf8.
  assert ((cp <? 128) = false) as -> by (apply N.ltb_ge; lia).
  assert ((cp <? 2048) = true) as -> by (apply N.ltb_lt; lia).
  destruct (land_low cp) as (-> & _). destruct (shiftr_div cp) as (-> & _).
  rewrite lor_C0 by euclid. rewrite lor_80 by euclid. done.
Qed.

Lemma utf8_3 (cp : N) : 2048 <= cp < 65536 ->
  Text.utf8 cp = [Text.to_byte (224 + cp / 64 / 64);
                  Text.to_byte (128 + (cp / 64) mod 64);
                  Text.to_byte (128 + cp mod 64)].
Proof.
  standalone. intros H. unfold Text.utf8.
  assert ((cp <? 128) = false) as -> by (apply N.ltb_ge; lia).
  assert ((cp <? 2048) = false) as -> by (apply N.ltb_ge; lia).
  assert ((cp <? 65536) = true) as -> by (apply N.ltb_lt; lia).
  destruct (shiftr_div cp) as (-> & -> & _).
  destruct (land_low cp) as (-> & _). destruct (land_low (cp / 64)) as (-> & _).
  rewrite lor_E0 by euclid. rewrite !lor_80 by euclid.
  replace (cp / 4096) with (cp / 64 / 64) by euclid. done.
Qed.

Lemma utf8_4 (cp : N) : 65536 <= cp < 2097152 ->
  Text.utf8 cp = [Text.to_byte (240 + cp / 64 / 64 / 64);
                  Text.to_byte (128 + (cp / 64 / 64) mod 64);
                  Text.to_byte (128 + (cp / 64) mod 64);
                  Text.to_byte (128 + cp mod 64)].
Proof.
  standalone. intros H. unfold Text.utf8.
  assert ((cp <? 128) = false) as -> by (apply N.ltb_ge; lia).
  assert ((cp <? 2048) = false) as -> by (apply N.ltb_ge; lia).
  assert ((cp <? 65536) = false) as -> by (apply N.ltb_ge; lia).
  destruct (shiftr_div cp) as (-> & -> & -> & _).
  destruct (land_low cp) as (-> & _). destruct (land_low (cp / 64)) as (-> & _).
  destruct (land_low (cp / 4096)) as (-> & _).
  rewrite lor_F0 by euclid. rewrite !lor_80 by euclid.
  replace (cp / 262144) with (cp / 64 / 64 / 64) by euclid.
  replace (cp / 4096) with (cp / 64 / 64) by euclid. done.
Qed.

Lemma mod_low (y : N) :
  (y < 64 -> (128 + y) mod 64 = y) /\ (y < 32 -> (192 + y) mod 32 = y) /\
  (y < 16 -> (224 + y) mod 16 = y) /\ (y < 8 -> (240 + y) mod 8 = y).
Proof. standalone. repeat split; intros; euclid. Qed.

(** A number as its last six bits and the rest. *)
Lemma digit (x : N) : x = 64 * (x / 64) + x mod 64 /\ x mod 64 < 64.
Proof. standalone. split; euclid. Qed.

Lemma digit1024 (x : N) : x = 1024 * (x / 1024) + x mod 1024 /\ x mod 1024 < 1024.
Proof. standalone. split; euclid. Qed.

Ltac split_cmp :=
  repeat match goal with
  | |- context [(?a <=? ?b)] => destruct (N.leb_spec a b); try (exfalso; lia)
  | |- context [(?a <? ?b)] => destruct (N.ltb_spec a b); try (exfalso; lia)
  | |- context [(?a =? ?b)] => destruct (N.eqb_spec a b); try (exfalso; lia)
  end; cbn [andb negb].

Ltac bits_to_arith :=
  repeat match goal with
  | |- context [N.land ?x 63] => destruct (land_low x) as (-> & _)
  | |- context [N.land ?x 31] => destruct (land_low x) as (_ & -> & _)
  | |- context [N.land ?x 15] => destruct (land_low x) as (_ & _ & -> & _)
  | |- context [N.land ?x 7] => destruct (land_low x) as (_ & _ & _ & -> & _)
  | |- context [(128 + ?y) mod 64] => destruct (mod_low y) as (-> & _); [| lia]
  | |- context [(192 + ?y) mod 32] => destruct (mod_low y) as (_ & -> & _); [| lia]
  | |- context [(224 + ?y) mod 16] => destruct (mod_low y) as (_ & _ & -> & _); [| lia]
  | |- context [(240 + ?y) mod 8] => destruct (mod_low y) as (_ & _ & _ & ->); [| lia]
  | |- context [N.lor (N.shiftl ?c 6) ?y] => rewrite (lor_shl6 c y) by lia
  end.

Ltac feed_step :=
  unfold Text.feed at 1;
  cbn [Text.bytes_needed Text.bytes_seen Text.code_point
       Text.lower_boundary Text.upper_boundary Text.idle];
  split_cmp; bits_to_arith.

Lemma decode_scalar (cp : N) (rest : list byte) :
  scalar cp ->
  Text.decode_from Text.idle (Text.utf8 cp ++ rest) = cp :: Text.decode_from Text.idle rest.
Proof.
  standalone. intros Hs. unfold scalar in Hs.
  destruct (N.lt_ge_cases cp 128) as [H1 | H1].
  { unfold Text.utf8. assert ((cp <? 128) = true) as -> by (apply N.ltb_lt; lia).
    cbn [app Text.decode_from]. rewrite of_byte_to_byte by lia.
    feed_step. unfold Text.lead. split_cmp. done. }
  destruct (digit cp) as [E0 B0]. destruct (digit (cp / 64)) as [E1 B1].
  destruct (digit (cp / 64 / 64)) as [E2 B2].
  destruct (N.lt_ge_cases cp 2048) as [H2 | H2].
  { rewrite utf8_2 by lia.
    set (d0 := cp mod 64) in *. set (q1 := cp / 64) in *.
    cbn [app Text.decode_from]. rewrite !of_byte_to_byte by lia.
    feed_step. unfold Text.lead. split_cmp. bits_to_arith.
    feed_step. cbn [app]. f_equal. lia. }
  destruct (N.lt_ge_cases cp 65536) as [H3 | H3].
  { rewrite utf8_3 by lia.
    set (d0 := cp mod 64) in *. set (q1 := cp / 64) in *.
    set (d1 := q1 mod 64) in *. set (q2 := q1 / 64) in *.
    cbn [app Text.decode_from]. rewrite !of_byte_to_byte by lia.
    feed_step. unfold Text.lead. split_cmp; bits_to_arith;
      (feed_step; feed_step; cbn [app]; f_equal; lia). }
  rewrite utf8_4 by lia.
  set (d0 := cp mod 64) in *. set (q1 := cp / 64) in *.
  set (d1 := q1 mod 64) in *. set (q2 := q1 / 64) in *.
  set (d2 := q2 mod 64) in *. set (q3 := q2 / 64) in *.
  cbn [app Text.decode_from]. rewrite !of_byte_to_byte by lia.
  feed_step. unfold Text.lead. split_cmp; bits_to_arith;
    (feed_step; feed_step; feed_step; cbn [app]; f_equal; lia).
Qed.

Lemma encode_scalar (cp : N) (rest : list Text.code_unit) :
  scalar cp ->
  Text.utf8_encode (Text.utf16 cp ++ rest) = (Text.utf8 cp ++ Text.utf8_encode rest)%list.
Proof.
  standalone. intros Hs. unfold scalar in Hs. unfold Text.utf16.
  destruct (N.ltb_spec cp 65536) as [H | H].
  - cbn [app Text.utf8_encode]. unfold Text.is_high, Text.is_low.
    split_cmp; done.
  - destruct (shiftr_div (cp - 65536)) as (_ & _ & _ & ->).
    destruct (land_low (cp - 65536)) as (_ & _ & _ & _ & ->).
    destruct (digit1024 (cp - 65536)) as [E B].
    set (lo := (cp - 65536) mod 1024) in *. set (hi := (cp - 65536) / 1024) in *.
    cbn [app Text.utf8_encode]. unfold Text.is_high, Text.is_low.
    split_cmp. rewrite N.shiftl_mul_pow2. change (2 ^ 10) with 1024.
    f_equal. f_equal. lia.
Qed.

Lemma decode_valid (cps : list N) :
  Forall scalar cps -> Text.decode_from Text.idle (concat (map Text.utf8 cps)) = cps.
Proof.
  standalone. induction 1 as [|cp cps Hcp _ IH]; [done |].
  cbn [map concat]. rewrite decode_scalar by done. by rewrite IH.
Qed.

Lemma encode_valid (cps : list N) :
  Forall scalar cps ->
  Text.utf8_encode (concat (map Text.utf16 cps)) = concat (map Text.utf8 cps).
Proof.
  standalone. induction 1 as [|cp cps Hcp _ IH]; [done |].
  cbn [map concat]. rewrite encode_scalar by done. by rewrite IH.
Qed.

(** A body that is the UTF-8 form of a text, the byte order marks that
    [Response.text()] drops apart, and that has no more than [n] code
    units comes back from decoding, cutting at [n] and encoding as it
    was, without those marks. *)
Lemma echo_valid (n : nat) (data : list byte) (cps : list N) :
  Text.strip_bom (Text.strip_bom data) = concat (map Text.utf8 cps) ->
  Forall scalar cps ->
  (length (concat (map Text.utf16 cps)) <= n)%nat ->
  Text.utf8_encode (Text.slice0 n (Text.utf8_decode data))
  = Text.strip_bom (Text.strip_bom data).
Proof.
  standalone. intros Hdata Hcps Hlen.
  unfold Text.utf8_decode, Text.TextDecoder_decode, Text.slice0.
  rewrite Hdata, decode_valid by done.
  rewrite take_ge by done. by apply encode_valid.
Qed.

Local Close Scope N_scope.

(** X23. An echoed upstream body that is valid UTF-8 and has at most
    2000 UTF-16 code units as text comes back byte for byte, without the
    byte order marks it starts with, up to two of them: [Response.text()]
    drops one and its [TextDecoder] drops the next. *)
Theorem upstream_echo_of_valid_text (req : IncomingMessage) (u : URL) (target : string)
    (r : Response) (data : list byte) (cps : list N) :
  method req = "POST" ->
  URL_new (url req) (Some (base_of req)) = Some u ->
  searchParams_get u "url" = Some target ->
  target <> "" ->
  isAllowedTarget target = true ->
  (pathname u = "/fetch" /\
   network (outbound req target "GET" None) = Responds r /\ ok r = false) \/
  (pathname u = "/upload" /\
   exists buf, upload req = Delivers buf /\
               network (outbound req target "PUT" (Some buf)) = Responds r) ->
  body r = Some (Delivers data) ->
  Text.strip_bom (Text.strip_bom data) = concat (map Text.utf8 cps) ->
  Forall scalar cps ->
  (length (concat (map Text.utf16 cps)) <= 2000)%nat ->
  sent (res (serve req)) = Some (Ended (Text.strip_bom (Text.strip_bom data))).
Proof.
  intros Hm Hu Ht Hne Hal Hcase Hbody Hdata Hcps Hlen.
  assert (He : echoed (serve req) r).
  { destruct Hcase as [(Hp & Hnet & Hok) | (Hp & buf & Hbuf & Hnet)].
    - by apply (serve_fetch_reply req u target r).
    - by apply (serve_upload_reply req u target buf r). }
  destruct He as (_ & _ & H3). rewrite H3. unfold text_or_empty. rewrite Hbody.
  by rewrite (echo_valid 2000 data cps).
Qed.

End Relay.

(** * The claims on concrete requests *)

(** A target whose host is a subdomain of an allowed suffix, written in
    capitals, parsed by the reference parser. *)
Lemma host_check_exact_or_dot_suffix_witness :
  let targetUrl := "HTTPS://Bucket.S3.AmazonAWS.com/key" in
  let u := {| protocol := "https:"; hostname := "bucket.s3.amazonaws.com";
              pathname := "/key"; searchParams := [] |} in
  Reference.URL_new targetUrl None = Some u /\
  (protocol u = "https:" \/ protocol u = "http:") /\
  (isAllowedTarget Reference.URL_new targetUrl = true <->
   exists suffix, In suffix ALLOWED_HOST_SUFFIXES /\
     (toLowerCase (hostname u) = suffix \/
      exists sub, toLowerCase (hostname u) = sub +:+ "." +:+ suffix))
  /\ (toLowerCase (hostname u) = "evil-amazonaws.com.attacker.net" ->
      isAllowedTarget Reference.URL_new targetUrl = false).
Proof.
  intros targetUrl u.
  split; [reflexivity |]. split; [left; reflexivity |].
  apply (host_check_exact_or_dot_suffix Reference.URL_new targetUrl u).
  - reflexivity.
  - left. reflexivity.
Defined.


(** A target on a host that only contains an allowed suffix. *)
Lemma disallowed_target_403_witness :
  let req := Reference.request "POST"
               "/fetch?url=https://evil-amazonaws.com.attacker.net/x" None [] in
  let w := serve Reference.URL_new Reference.JSON_parse Reference.offline req in
  statusCode (res w) = 403 /\ calls w = [].
Proof.
  apply (disallowed_target_403 Reference.URL_new Reference.JSON_parse Reference.offline
           (Reference.request "POST"
              "/fetch?url=https://evil-amazonaws.com.attacker.net/x" None [])
           {| protocol := "http:"; hostname := "localhost"; pathname := "/fetch";
              searchParams := [("url", "https://evil-amazonaws.com.attacker.net/x")] |}
           "https://evil-amazonaws.com.attacker.net/x").
  - reflexivity.
  - reflexivity.
  - left. reflexivity.
  - reflexivity.
  - discriminate.
  - reflexivity.
Defined.

(** C1 as worded fails on [POST /fetch?url=]: the parameter is present,
    its value fails the allow-list check, and the answer is 400. *)
Lemma empty_target_is_400_not_403 :
  let req := Reference.request "POST" "/fetch?url=" None [] in
  let u := {| protocol := "http:"; hostname := "localhost"; pathname := "/fetch";
              searchParams := [("url", "")] |} in
  let w := serve Reference.URL_new Reference.JSON_parse Reference.offline req in
  method req = "POST" /\
  Reference.URL_new (url req) (Some (base_of req)) = Some u /\
  pathname u = "/fetch" /\
  searchParams_get u "url" = Some "" /\
  isAllowedTarget Reference.URL_new "" = false /\
  statusCode (res w) = 400 /\
  statusCode (res w) <> 403.
Proof. repeat split; try reflexivity; vm_compute; discriminate. Qed.

(** A [POST] to [/upload] without a [url] parameter. *)
Lemma missing_target_400_witness :
  let req := Reference.request "POST" "/upload" None [] in
  let w := serve Reference.URL_new Reference.JSON_parse Reference.offline req in
  statusCode (res w) = 400 /\
  sent (res w) = Some (Ended (list_byte_of_string "Missing ?url=")) /\
  calls w = [].
Proof.
  apply (missing_target_400 Reference.URL_new Reference.JSON_parse Reference.offline
           (Reference.request "POST" "/upload" None [])
           {| protocol := "http:"; hostname := "localhost"; pathname := "/upload";
              searchParams := [] |}).
  - reflexivity.
  - reflexivity.
  - right. reflexivity.
  - left. reflexivity.
Defined.

(** C5 as worded fails on [POST /fetch?url=not-a-url]: the target does
    not parse as an absolute URL, and the answer is 403. *)
Lemma unparsable_target_is_403_not_400 :
  let req := Reference.request "POST" "/fetch?url=not-a-url" None [] in
  let u := {| protocol := "http:"; hostname := "localhost"; pathname := "/fetch";
              searchParams := [("url", "not-a-url")] |} in
  let w := serve Reference.URL_new Reference.JSON_parse Reference.offline req in
  method req = "POST" /\
  Reference.URL_new (url req) (Some (base_of req)) = Some u /\
  pathname u = "/fetch" /\
  searchParams_get u "url" = Some "not-a-url" /\
  Reference.URL_new "not-a-url" None = None /\
  statusCode (res w) = 403 /\
  statusCode (res w) <> 400.
Proof. repeat split; try reflexivity; vm_compute; discriminate. Qed.

(** A [POST] to [/status] with an allowed target, and a [DELETE] of
    [/fetch]. *)
Lemma unknown_path_404_after_method_and_target_witness :
  let post := Reference.request "POST" "/status?url=https://autodesk.com/" None [] in
  let delete := Reference.request "DELETE" "/fetch?url=https://autodesk.com/" None [] in
  let run := serve Reference.URL_new Reference.JSON_parse Reference.offline in
  (statusCode (res (run post)) = 404 /\
   sent (res (run post)) =
     Some (Ended (list_byte_of_string
                    "Not found. Use POST /fetch?url=... or POST /upload?url=...")) /\
   calls (run post) = []) /\
  (statusCode (res (run delete)) = 405 /\ calls (run delete) = []).
Proof.
  intros post delete run. split.
  - destruct (unknown_path_404_after_method_and_target
                Reference.URL_new Reference.JSON_parse Reference.offline post)
      as [_ Hparsed]; [discriminate |].
    destruct (Hparsed {| protocol := "http:"; hostname := "localhost"; pathname := "/status";
                         searchParams := [("url", "https://autodesk.com/")] |} eq_refl)
      as [_ Hpost].
    destruct Hpost as (Hcalls & _ & Htarget); [reflexivity | discriminate | discriminate |].
    destruct (Htarget "https://autodesk.com/" eq_refl) as [_ Hallowed]; [discriminate |].
    destruct (Hallowed eq_refl) as [Hstatus Hsent].
    split; [exact Hstatus | split; [exact Hsent | exact Hcalls]].
  - destruct (unknown_path_404_after_method_and_target
                Reference.URL_new Reference.JSON_parse Reference.offline delete)
      as [_ Hparsed]; [discriminate |].
    destruct (Hparsed {| protocol := "http:"; hostname := "localhost"; pathname := "/fetch";
                         searchParams := [("url", "https://autodesk.com/")] |} eq_refl)
      as [Hother _].
    apply Hother. discriminate.
Defined.

(** C6 as worded fails on an unknown path in three ways: [GET /status]
    is answered 405, [POST /status] without a [url] parameter is
    answered 400, and [POST /status] with a target that is not allowed
    is answered 403.  None is answered 404. *)
Lemma unknown_path_is_405_400_403_not_404 :
  let run := serve Reference.URL_new Reference.JSON_parse Reference.offline in
  let get := Reference.request "GET" "/status" None [] in
  let bare := Reference.request "POST" "/status" None [] in
  let evil := Reference.request "POST" "/status?url=https://evil.example.com/" None [] in
  (method get <> "OPTIONS" /\
   Reference.URL_new (url get) (Some (base_of get))
   = Some {| protocol := "http:"; hostname := "localhost"; pathname := "/status";
             searchParams := [] |} /\
   statusCode (res (run get)) = 405) /\
  (method bare <> "OPTIONS" /\
   Reference.URL_new (url bare) (Some (base_of bare))
   = Some {| protocol := "http:"; hostname := "localhost"; pathname := "/status";
             searchParams := [] |} /\
   statusCode (res (run bare)) = 400) /\
  (method evil <> "OPTIONS" /\
   Reference.URL_new (url evil) (Some (base_of evil))
   = Some {| protocol := "http:"; hostname := "localhost"; pathname := "/status";
             searchParams := [("url", "https://evil.example.com/")] |} /\
   statusCode (res (run evil)) = 403).
Proof. repeat split; try reflexivity; discriminate. Qed.

(** A 404 with an ASCII body of 5000 bytes on [/fetch]: the first 2000
    come back. *)
Lemma upstream_echo_2000_code_units_witness :
  let data := replicate (Z.to_nat 5000) "x"%byte in
  let r := {| status := 404; resp_headers := ∅; body := Some (Delivers data) |} in
  let req := Reference.request "POST" "/fetch?url=https://s3.amazonaws.com/b/k" None [] in
  let w := serve Reference.URL_new Reference.JSON_parse (Reference.replies r) req in
  statusCode (res w) = 404 /\
  out_headers (res w) !! "content-type" = Some "text/plain; charset=utf-8" /\
  sent (res w) = Some (Ended (replicate 2000 "x"%byte)).
Proof.
  intros data r req w.
  destruct (upstream_echo_2000_code_units
              Reference.URL_new Reference.JSON_parse (Reference.replies r) req
              {| protocol := "http:"; hostname := "localhost"; pathname := "/fetch";
                 searchParams := [("url", "https://s3.amazonaws.com/b/k")] |}
              "https://s3.amazonaws.com/b/k" r)
    as (Hstatus & Htype & _ & _ & Hascii).
  - reflexivity.
  - reflexivity.
  - reflexivity.
  - discriminate.
  - reflexivity.
  - left. repeat split; reflexivity.
  - split; [exact Hstatus | split; [exact Htype |]].
    destruct (Hascii data eq_refl) as [Hsent _].
    + apply Forall_replicate. reflexivity.
    + exact Hsent.
Defined.

(** C4 as worded fails on a 404 whose body is 2500 Hangul syllables,
    7500 bytes: the text is cut at 2000 code units, and the relay writes
    the first 6000 bytes of the body, not its first 2000. *)
Lemma echo_of_7500_bytes_is_cut_at_6000 :
  let r := {| status := 404; resp_headers := ∅;
              body := Some (Delivers (Reference.hangul 2500)) |} in
  let req := Reference.request "POST" "/fetch?url=https://s3.amazonaws.com/b/k" None [] in
  let w := serve Reference.URL_new Reference.JSON_parse (Reference.replies r) req in
  ok r = false /\
  Z.of_nat (length (Reference.hangul 2500)) = 7500 /\
  statusCode (res w) = 404 /\
  sent (res w) = Some (Ended (Reference.hangul 2000)) /\
  Z.of_nat (length (Reference.hangul 2000)) = 6000 /\
  sent (res w) <> Some (Ended (take 2000 (Reference.hangul 2500))).
Proof.
  repeat split; try (vm_compute; reflexivity).
  intros H. apply (f_equal (fun p => match p with
                                     | Some (Ended data) => length data
                                     | _ => 0%nat
                                     end)) in H.
  vm_compute in H. discriminate.
Qed.

(** An upload of two bytes. *)
Lemma outbound_method_fixed_per_operation_witness :
  let req := Reference.request "POST" "/upload?url=https://x.cloudfront.net/part"
               None [Byte.x01; Byte.x02] in
  let w := serve Reference.URL_new Reference.JSON_parse Reference.offline req in
  calls w = [outbound Reference.JSON_parse req "https://x.cloudfront.net/part" "PUT"
               (Some [Byte.x01; Byte.x02])] /\
  (forall c, In c (calls w) ->
     exists u, Reference.URL_new (url req) (Some (base_of req)) = Some u /\
       ((pathname u = "/fetch" /\ call_method c = "GET" /\ call_body c = None) \/
        (pathname u = "/upload" /\ call_method c = "PUT" /\
         exists buf, upload req = Delivers buf /\ call_body c = Some buf))).
Proof.
  intros req w.
  destruct (outbound_method_fixed_per_operation
              Reference.URL_new Reference.JSON_parse Reference.offline req) as [Hall Hone].
  split; [| exact Hall].
  apply (Hone {| protocol := "http:"; hostname := "localhost"; pathname := "/upload";
                 searchParams := [("url", "https://x.cloudfront.net/part")] |}
              "https://x.cloudfront.net/part");
    try reflexivity; discriminate.
Defined.

(** A header that is not JSON. *)
Lemma malformed_extra_headers_ignored_witness :
  let req := Reference.request "POST" "/fetch?url=https://autodesk.com/" (Some "not-json") [] in
  parseExtraHeaders Reference.JSON_parse req = ∅ /\
  serve Reference.URL_new Reference.JSON_parse Reference.offline req =
  serve Reference.URL_new Reference.JSON_parse Reference.offline (without_extra_headers req).
Proof.
  intros req.
  apply (malformed_extra_headers_ignored
           Reference.URL_new Reference.JSON_parse Reference.offline req).
  right. exists (Single "not-json"). split; [reflexivity |]. left. reflexivity.
Defined.

(** An upstream 206 with a body. *)
Lemma fetch_success_answers_200_witness :
  let r := {| status := 206; resp_headers := ∅;
              body := Some (Delivers [Byte.x01; Byte.x02]) |} in
  let req := Reference.request "POST" "/fetch?url=https://s3.amazonaws.com/b/k" None [] in
  let w := serve Reference.URL_new Reference.JSON_parse (Reference.replies r) req in
  status r <> 200 /\ statusCode (res w) = 200 /\
  sent (res w) = Some (Piped (Delivers [Byte.x01; Byte.x02])).
Proof.
  intros r req w. split; [discriminate |].
  apply (fetch_success_answers_200
           Reference.URL_new Reference.JSON_parse (Reference.replies r) req
           {| protocol := "http:"; hostname := "localhost"; pathname := "/fetch";
              searchParams := [("url", "https://s3.amazonaws.com/b/k")] |}
           "https://s3.amazonaws.com/b/k" r).
  - reflexivity.
  - reflexivity.
  - reflexivity.
  - discriminate.
  - reflexivity.
  - reflexivity.
  - reflexivity.
  - simpl. lia.
Defined.

(** The header of the example: the one call of the request carries
    [Authorization] and [Accept], and [X-Forbidden] is not in it. *)
Lemma forwarded_headers_allow_listed_witness :
  let req := Reference.request "POST" "/fetch?url=https://autodesk.com/"
               (Some Reference.example_text) [] in
  exists c,
    calls (serve Reference.URL_new Reference.JSON_parse Reference.offline req) = [c] /\
    call_url c = "https://autodesk.com/" /\
    call_headers c !! "Authorization" = Some "Bearer abc" /\
    call_headers c !! "Accept" = Some "text/plain" /\
    call_headers c !! "X-Forbidden" = None.
Proof.
  intros req.
  destruct (forwarded_headers_allow_listed
              Reference.URL_new Reference.JSON_parse Reference.offline req
              (Single Reference.example_text) Reference.example_props)
    as (_ & _ & Hcall).
  - reflexivity.
  - reflexivity.
  - reflexivity.
  - destruct (Hcall {| protocol := "http:"; hostname := "localhost"; pathname := "/fetch";
                       searchParams := [("url", "https://autodesk.com/")] |}
                    "https://autodesk.com/")
      as (c & Hcalls & Hurl & Hheaders).
    + reflexivity.
    + reflexivity.
    + reflexivity.
    + discriminate.
    + reflexivity.
    + left. reflexivity.
    + exists c. split; [exact Hcalls |]. split; [exact Hurl |]. split; [| split].
      * apply Hheaders. split; [reflexivity |]. left. reflexivity.
      * apply Hheaders. split; [reflexivity |]. right. right. left. reflexivity.
      * destruct (call_headers c !! "X-Forbidden") as [v|] eqn:Hv; [| reflexivity].
        apply Hheaders in Hv as [_ Hin]. exfalso.
        repeat (destruct Hin as [Hin | Hin]; [discriminate Hin |]). exact Hin.
Defined.

(** The outbound call of the example carries [Authorization] and
    [Accept] and nothing else. *)
Example example_headers_forwarded :
  let req := Reference.request "POST" "/fetch?url=https://autodesk.com/"
               (Some Reference.example_text) [] in
  map (fun c => map_to_list (call_headers c))
      (calls (serve Reference.URL_new Reference.JSON_parse Reference.offline req)) =
  [[("Accept", "text/plain"); ("Authorization", "Bearer abc")]].
Proof. vm_compute. reflexivity. Qed.




(** * More of the relay and its callers on concrete requests *)

(** A preflight for a path the relay does not know. *)
Lemma preflight_204_witness :
  let req := Reference.request "OPTIONS" "/anything?url=nonsense" None [] in
  let w := serve Reference.URL_new Reference.JSON_parse Reference.offline req in
  method req = "OPTIONS" /\
  statusCode (res w) = 204 /\ sent (res w) = Some (Ended []) /\ calls w = [].
Proof.
  intros req w. split; [reflexivity |].
  destruct (preflight_204 Reference.URL_new Reference.JSON_parse Reference.offline req)
    as (H1 & H2 & _ & H4 & _); [reflexivity |].
  split; [exact H1 | split; [exact H2 | exact H4]].
Defined.

(** A download from a bucket that cannot be reached. *)
Lemma upstream_failure_500_witness :
  let req := Reference.request "POST" "/fetch?url=https://s3.amazonaws.com/b/k" None [] in
  let w := serve Reference.URL_new Reference.JSON_parse Reference.offline req in
  statusCode (res w) = 500 /\
  out_headers (res w) !! "content-type" = Some "text/plain; charset=utf-8" /\
  sent (res w) = Some (Ended (list_byte_of_string "Proxy error: fetch failed")).
Proof.
  intros req w.
  apply (upstream_failure_500 Reference.URL_new Reference.JSON_parse Reference.offline req
           {| protocol := "http:"; hostname := "localhost"; pathname := "/fetch";
              searchParams := [("url", "https://s3.amazonaws.com/b/k")] |}
           "https://s3.amazonaws.com/b/k" (Error "fetch failed")).
  - reflexivity.
  - reflexivity.
  - reflexivity.
  - discriminate.
  - reflexivity.
  - left. split; reflexivity.
Defined.

(** An upload whose connection is reset while the body is read. *)
Lemma unread_upload_500_witness :
  let req := {| method := "POST"; url := "/upload?url=https://x.cloudfront.net/part";
                headers := {["host" := Single "localhost:8787"]};
                upload := Breaks (Error "aborted") |} in
  let w := serve Reference.URL_new Reference.JSON_parse Reference.offline req in
  failed w (Error "aborted") /\ calls w = [] /\ timers w = ∅.
Proof.
  intros req w.
  apply (unread_upload_500 Reference.URL_new Reference.JSON_parse Reference.offline req
           {| protocol := "http:"; hostname := "localhost"; pathname := "/upload";
              searchParams := [("url", "https://x.cloudfront.net/part")] |}
           "https://x.cloudfront.net/part" (Error "aborted")).
  - reflexivity.
  - reflexivity.
  - reflexivity.
  - discriminate.
  - reflexivity.
  - reflexivity.
  - reflexivity.
Defined.

(** A request with an empty [Host] header: the base is [http://]. *)
Lemma unparsable_request_url_500_witness :
  let req := {| method := "POST"; url := "/fetch?url=https://autodesk.com/";
                headers := {["host" := Single ""]};
                upload := Delivers [] |} in
  let w := serve Reference.URL_new Reference.JSON_parse Reference.offline req in
  base_of req = "http://" /\ failed w invalid_url /\ calls w = [].
Proof.
  intros req w. split; [reflexivity |].
  apply (unparsable_request_url_500 Reference.URL_new Reference.JSON_parse Reference.offline req).
  - discriminate.
  - reflexivity.
Defined.

(** A model of two bytes, served with its type and its length. *)
Lemma fetch_success_headers_witness :
  let r := {| status := 200;
              resp_headers := <["content-length" := "2"]> {["content-type" := "model/gltf-binary"]};
              body := Some (Delivers [Byte.x01; Byte.x02]) |} in
  let req := Reference.request "POST" "/fetch?url=https://s3.amazonaws.com/b/k" None [] in
  let w := serve Reference.URL_new Reference.JSON_parse (Reference.replies r) req in
  out_headers (res w) !! "content-type" = Some "model/gltf-binary" /\
  out_headers (res w) !! "content-length" = Some "2" /\
  out_headers (res w) !! "server" = None.
Proof.
  intros r req w.
  pose proof (fetch_success_headers Reference.URL_new Reference.JSON_parse (Reference.replies r)
                req
                {| protocol := "http:"; hostname := "localhost"; pathname := "/fetch";
                   searchParams := [("url", "https://s3.amazonaws.com/b/k")] |}
                "https://s3.amazonaws.com/b/k" r
                eq_refl eq_refl eq_refl ltac:(discriminate) eq_refl eq_refl eq_refl eq_refl) as H.
  split; [exact (H "content-type") |].
  split; [exact (H "content-length") | exact (H "server")].
Defined.

(** An upload with and without a [Content-Type] of its own. *)
Lemma other_inbound_headers_ignored_witness :
  let req := Reference.request "POST" "/upload?url=https://x.cloudfront.net/part"
               None [Byte.x01; Byte.x02] in
  let req' := {| method := method req; url := url req;
                 headers := <["content-type" := Single "application/octet-stream"]> (headers req);
                 upload := upload req |} in
  serve Reference.URL_new Reference.JSON_parse Reference.offline req =
  serve Reference.URL_new Reference.JSON_parse Reference.offline req'.
Proof.
  intros req req'.
  apply (other_inbound_headers_ignored
           Reference.URL_new Reference.JSON_parse Reference.offline req req');
    reflexivity.
Defined.

(** A bucket under [amazonaws.com]. *)
Lemma subdomain_of_allowed_host_allowed_witness :
  isAllowedTarget Reference.URL_new "https://amazonaws.com/" = true /\
  isAllowedTarget Reference.URL_new "http://bucket.s3.amazonaws.com/x" = true.
Proof.
  split; [reflexivity |].
  apply (subdomain_of_allowed_host_allowed Reference.URL_new
           "https://amazonaws.com/" "http://bucket.s3.amazonaws.com/x"
           {| protocol := "https:"; hostname := "amazonaws.com"; pathname := "/";
              searchParams := [] |}
           {| protocol := "http:"; hostname := "bucket.s3.amazonaws.com"; pathname := "/x";
              searchParams := [] |}
           "bucket.s3").
  - reflexivity.
  - reflexivity.
  - right. reflexivity.
  - reflexivity.
  - reflexivity.
Defined.

(** The API host, which the second entry of the list covers. *)
Lemma allow_list_is_three_suffixes_witness :
  isAllowedTarget Reference.URL_new "https://developer.api.autodesk.com/forma" = true <->
  exists suffix, In suffix ["autodesk.com"; "amazonaws.com"; "cloudfront.net"] /\
                 (toLowerCase "developer.api.autodesk.com" = suffix \/
                  exists sub, toLowerCase "developer.api.autodesk.com" = sub +:+ "." +:+ suffix).
Proof.
  apply (allow_list_is_three_suffixes Reference.URL_new
           "https://developer.api.autodesk.com/forma"
           {| protocol := "https:"; hostname := "developer.api.autodesk.com";
              pathname := "/forma"; searchParams := [] |}).
  - reflexivity.
  - left. reflexivity.
Defined.

(** A 404 whose body is 1000 Hangul syllables. *)
Lemma upstream_echo_at_most_6000_bytes_witness :
  let r := {| status := 404; resp_headers := ∅;
              body := Some (Delivers Reference.hangul_body) |} in
  let req := Reference.request "POST" "/fetch?url=https://s3.amazonaws.com/b/k" None [] in
  let w := serve Reference.URL_new Reference.JSON_parse (Reference.replies r) req in
  exists data, sent (res w) = Some (Ended data) /\ Z.of_nat (length data) <= 6000.
Proof.
  intros r req w.
  apply (upstream_echo_at_most_6000_bytes
           Reference.URL_new Reference.JSON_parse (Reference.replies r) req
           {| protocol := "http:"; hostname := "localhost"; pathname := "/fetch";
              searchParams := [("url", "https://s3.amazonaws.com/b/k")] |}
           "https://s3.amazonaws.com/b/k" r).
  - reflexivity.
  - reflexivity.
  - reflexivity.
  - discriminate.
  - reflexivity.
  - left. repeat split; reflexivity.
Defined.

(** A body that starts with two byte order marks. *)
Lemma upstream_echo_of_valid_text_witness :
  let data := [Byte.xef; Byte.xbb; Byte.xbf; Byte.xef; Byte.xbb; Byte.xbf; Byte.x41] in
  let r := {| status := 404; resp_headers := ∅; body := Some (Delivers data) |} in
  let req := Reference.request "POST" "/fetch?url=https://s3.amazonaws.com/b/k" None [] in
  let w := serve Reference.URL_new Reference.JSON_parse (Reference.replies r) req in
  sent (res w) = Some (Ended [Byte.x41]).
Proof.
  intros data r req w.
  apply (upstream_echo_of_valid_text
           Reference.URL_new Reference.JSON_parse (Reference.replies r) req
           {| protocol := "http:"; hostname := "localhost"; pathname := "/fetch";
              searchParams := [("url", "https://s3.amazonaws.com/b/k")] |}
           "https://s3.amazonaws.com/b/k" r data [65%N]).
  - reflexivity.
  - reflexivity.
  - reflexivity.
  - discriminate.
  - reflexivity.
  - left. repeat split; reflexivity.
  - reflexivity.
  - reflexivity.
  - apply Forall_cons. split; [left; reflexivity | apply Forall_nil_2].
  - cbn. lia.
Defined.

(** An upload in two chunks. *)
Lemma upload_forwards_chunks_or_nothing_witness :
  let req := Reference.request "POST" "/upload?url=https://x.cloudfront.net/part"
               None [Byte.x01; Byte.x02; Byte.x03] in
  let w := serve Reference.URL_new Reference.JSON_parse Reference.offline req in
  readRequestBody_events [OnData [Byte.x01]; OnData [Byte.x02; Byte.x03]; OnEnd]
    = Some (upload req) /\
  calls w = [outbound Reference.JSON_parse req "https://x.cloudfront.net/part" "PUT"
               (Some [Byte.x01; Byte.x02; Byte.x03])].
Proof.
  intros req w. split; [reflexivity |].
  destruct (upload_forwards_chunks_or_nothing
              Reference.URL_new Reference.JSON_parse Reference.offline req
              {| protocol := "http:"; hostname := "localhost"; pathname := "/upload";
                 searchParams := [("url", "https://x.cloudfront.net/part")] |}
              "https://x.cloudfront.net/part" [[Byte.x01]; [Byte.x02; Byte.x03]]
              eq_refl eq_refl eq_refl ltac:(discriminate) eq_refl eq_refl) as [Hend _].
  apply (Hend []). reflexivity.
Defined.

(** A call that hangs until the timer of [proxyFetch] fires. *)
Lemma serve_timeout_witness :
  let req := Reference.request "POST" "/fetch?url=https://s3.amazonaws.com/b/k" None [] in
  let w := serve Reference.URL_new Reference.JSON_parse (fun _ => Hangs) req in
  statusCode (res w) = 500 /\
  sent (res w) = Some (Ended (list_byte_of_string "Proxy error: proxy timeout")) /\
  timers w = ∅.
Proof.
  intros req w.
  apply (serve_timeout Reference.URL_new Reference.JSON_parse (fun _ => Hangs) req
           {| protocol := "http:"; hostname := "localhost"; pathname := "/fetch";
              searchParams := [("url", "https://s3.amazonaws.com/b/k")] |}
           "https://s3.amazonaws.com/b/k").
  - reflexivity.
  - reflexivity.
  - reflexivity.
  - discriminate.
  - reflexivity.
  - left. split; reflexivity.
Defined.

(** The headers of a signed-in caller in a region. *)
Lemma caller_headers_forwarded_whole_witness :
  let h := authHeaders "tok" (Some "EMEA") in
  parseExtraHeaders (Browser.JSON_parse_record h)
    (proxyFetchBlob_request Browser.encodeURIComponent Browser.JSON_stringify
       "localhost:8787" "https://s3.amazonaws.com/b/k" h) = h /\
  h !! "Authorization" = Some "Bearer tok" /\ h !! "X-Ads-Region" = Some "EMEA".
Proof.
  intros h. split; [| split; reflexivity].
  apply (caller_headers_forwarded_whole (Browser.JSON_parse_record h)
           Browser.encodeURIComponent Browser.JSON_stringify
           "localhost:8787" "https://s3.amazonaws.com/b/k" "tok" (Some "EMEA") h).
  - left. reflexivity.
  - vm_compute. discriminate.
  - vm_compute. reflexivity.
Defined.

(** A download of three bytes that upstream answers with 206 and a
    [Content-Length] of 3. *)
Lemma proxyDownloadBlob_gives_upstream_bytes_witness :
  let h := downloadHeaders "tok" (Some "EMEA") in
  let r := {| status := 206; resp_headers := {["content-length" := "3"]};
              body := Some (Delivers [Byte.x01; Byte.x02; Byte.x03]) |} in
  proxyDownloadBlob Browser.URL_new (Browser.JSON_parse_record h) (Reference.replies r)
    Browser.encodeURIComponent Browser.JSON_stringify Browser.statusText Browser.irregular
    "https://s3.amazonaws.com/b/k?sig=a b" "tok" (Some "EMEA") "localhost:8787"
  = Returns [Byte.x01; Byte.x02; Byte.x03].
Proof.
  intros h r.
  refine (proj1 (proxyDownloadBlob_gives_upstream_bytes
           Browser.URL_new (Browser.JSON_parse_record h) (Reference.replies r)
           Browser.encodeURIComponent Browser.JSON_stringify Browser.statusText
           Browser.irregular
           "https://s3.amazonaws.com/b/k?sig=a b" "tok" (Some "EMEA") "localhost:8787"
           {| protocol := "http:"; hostname := "localhost"; pathname := "/fetch";
              searchParams := [("url", "https://s3.amazonaws.com/b/k?sig=a b")] |}
           r [Byte.x01; Byte.x02; Byte.x03] _ _ _ _ _ _ _ _ _)).
  - repeat split; vm_compute; reflexivity.
  - discriminate.
  - vm_compute. reflexivity.
  - vm_compute. discriminate.
  - vm_compute. reflexivity.
  - reflexivity.
  - reflexivity.
  - reflexivity.
  - right. right. reflexivity.
Defined.

(** A target outside the allow-list. *)
Lemma proxyFetchBlob_throws_on_refusal_witness :
  let h := authHeaders "tok" None in
  calls (serve Browser.URL_new (Browser.JSON_parse_record h) Reference.offline
           (proxyFetchBlob_request Browser.encodeURIComponent Browser.JSON_stringify
              "localhost:8787" "https://evil.example.com/x" h)) = [] /\
  exists text,
    proxyFetchBlob Browser.URL_new (Browser.JSON_parse_record h) Reference.offline
      Browser.encodeURIComponent Browser.JSON_stringify Browser.statusText Browser.irregular
      "localhost:8787" "https://evil.example.com/x" h
    = Throws (Error ("Proxy fetch 403 Forbidden: " +:+ text)).
Proof.
  intros h.
  destruct (proxyFetchBlob_throws_on_refusal
              Browser.URL_new (Browser.JSON_parse_record h) Reference.offline
              Browser.encodeURIComponent Browser.JSON_stringify Browser.statusText
              Browser.irregular
              "localhost:8787" "https://evil.example.com/x" h
              {| protocol := "http:"; hostname := "localhost"; pathname := "/fetch";
                 searchParams := [("url", "https://evil.example.com/x")] |})
    as [Hrefused _].
  - repeat split; vm_compute; reflexivity.
  - discriminate.
  - apply Hrefused. vm_compute. reflexivity.
Defined.

(** Two failures, then a value; and three failures under a delay of
    2^53 - 1 ms, whose third multiple has 55 bits. *)
Lemma withRetry_first_success_witness :
  withRetry (fun k => if (k <? 2)%nat then Throws (Error "busy") else Returns 7) 3 400
  = (Returns 7, 3%nat, [400; 800]) /\
  withRetry (fun k => if (k <? 3)%nat then Throws (Error "busy") else Returns 7)
            3 9007199254740991
  = (Returns 7, 4%nat, [9007199254740991; 18014398509481982; 27021597764222972]).
Proof.
  split.
  - destruct (withRetry_first_success
                (fun k => if (k <? 2)%nat then Throws (Error "busy") else Returns 7)
                3 400 2 7) as [_ Hexact].
    + lia.
    + lia.
    + lia.
    + reflexivity.
    + intros k Hk. exists (Error "busy").
      destruct k as [|[|k]]; [reflexivity | reflexivity | lia].
    + apply Hexact. lia.
  - destruct (withRetry_first_success
                (fun k => if (k <? 3)%nat then Throws (Error "busy") else Returns 7)
                3 9007199254740991 3 7) as [Hrounded _].
    + lia.
    + lia.
    + lia.
    + reflexivity.
    + intros k Hk. exists (Error "busy").
      destruct k as [|[|[|k]]]; [reflexivity | reflexivity | reflexivity | lia].
    + rewrite Hrounded. vm_compute. reflexivity.
Defined.

(** Failures only, with two retries. *)
Lemma withRetry_exhausted_witness :
  withRetry (A := Z) (fun k => Throws (Error (of_status (Z.of_nat k)))) 2 400
  = (Throws (Error "2"), 3%nat, [400; 800]).
Proof.
  destruct (withRetry_exhausted (A := Z)
              (fun k => Throws (Error (of_status (Z.of_nat k)))) 2 400 (Error "2"))
    as [_ Hexact].
  - lia.
  - lia.
  - lia.
  - reflexivity.
  - intros k _. eexists. reflexivity.
  - apply Hexact. lia.
Defined.

(** A caller that passes [-1] for [tries]. *)
Lemma withRetry_negative_tries_witness :
  withRetry (fun _ => Returns 7) (-1) 400 = (Throws undefined, 0%nat, []).
Proof.
  apply (withRetry_negative_tries (fun _ => Returns 7) (-1) 400). lia.
Defined.

Ltac colon_free_all :=
  repeat (apply Forall_cons; split;
          [unfold colon_free; cbn; intros Hin;
           repeat (destruct Hin as [Hin | Hin]; [discriminate Hin |]); exact Hin |]);
  apply Forall_nil_2.

(** The URN of a terrain element, and a URN cut short. *)
Lemma parseFormaUrn_of_fields_witness :
  parseFormaUrn "urn:adsk-forma-elements:terrain:pro_x:id1:rev2:more"
  = {| kind := "terrain"; authcontext := "pro_x"; elementId := "id1"; revision := "rev2" |} /\
  parseFormaUrn "urn:adsk-forma-elements:terrain"
  = {| kind := "terrain"; authcontext := ""; elementId := ""; revision := "" |}.
Proof.
  split.
  - apply (parseFormaUrn_of_fields
             ["urn"; "adsk-forma-elements"; "terrain"; "pro_x"; "id1"; "rev2"; "more"]).
    + discriminate.
    + colon_free_all.
  - apply (parseFormaUrn_of_fields ["urn"; "adsk-forma-elements"; "terrain"]).
    + discriminate.
    + colon_free_all.
Defined.

(** The URN of a proposal. *)
Lemma parseProposalIdFromUrn_of_fields_witness :
  parseProposalIdFromUrn "urn:adsk-forma-elements:proposal:pro_x:p1:rev2" = "p1" /\
  parseProposalIdFromUrn "urn:adsk-forma-elements" = "".
Proof.
  destruct (parseProposalIdFromUrn_of_fields
              ["urn"; "adsk-forma-elements"] ["pro_x"; "p1"; "rev2"]) as [Hid Hnone].
  - colon_free_all.
  - cbn. intros [H | [H | H]]; [discriminate H | discriminate H | exact H].
  - split; [exact Hid |]. apply Hnone; [discriminate | colon_free_all].
Defined.
